(** * MediaCore AudioClip / AudioOverlap: a shallow embedding of src/AudioClip.cpp

    The file follows the C++ source class by class:
    - [Int]: the fixed-width integer arithmetic the source computes with
      (int64_t, uint32_t, int), two's-complement wrap-around written out;
    - [Double]: the binary64 conversions used for timestamps;
    - [ImMat]: the sample buffer;
    - [MediaReader]: the source session, an interface of the code base whose
      implementation lives outside AudioClip.cpp;
    - [AudioClip]: class AudioClip_AudioImpl;
    - [AudioOverlap]: DefaultAudioTransition_Impl and class AudioOverlap_Impl,
      over a store of shared clips;
    - [Sim]: a small deterministic source session used to run the model.

    Logging statements have no effect on the state of a clip or an overlap and
    are left out of the embedding. *)

From Stdlib Require Import ZArith Zdiv Lia Bool List String Setoid Morphisms.
From Stdlib Require Import PrimFloat SpecFloat FloatOps.
Import ListNotations.
Open Scope Z_scope.

(* ------------------------------------------------------------------------- *)
(** ** Fixed-width integers *)

Module Int.

Definition int64_min : Z := - 2 ^ 63.
Definition int64_max : Z := 2 ^ 63 - 1.
Definition uint32_max : Z := 2 ^ 32 - 1.

Definition is_int64 (z : Z) : Prop := int64_min <= z <= int64_max.
Definition is_uint32 (z : Z) : Prop := 0 <= z <= uint32_max.

  (** Reduction of a mathematical integer to the value an int64_t holds. *)
Definition wrap64 (z : Z) : Z := (z + 2 ^ 63) mod 2 ^ 64 - 2 ^ 63.
  (** Conversion to uint32_t. *)
Definition wrap_u32 (z : Z) : Z := z mod 2 ^ 32.
  (** Conversion to int. *)
Definition wrap_i32 (z : Z) : Z := (z + 2 ^ 31) mod 2 ^ 32 - 2 ^ 31.

Definition add64 (a b : Z) : Z := wrap64 (a + b).
Definition sub64 (a b : Z) : Z := wrap64 (a - b).
Definition mul64 (a b : Z) : Z := wrap64 (a * b).
  (** C++ division truncates towards zero. *)
Definition div64 (a b : Z) : Z := wrap64 (Z.quot a b).
Definition neg64 (a : Z) : Z := wrap64 (- a).
Definition abs64 (a : Z) : Z := wrap64 (Z.abs a).

End Int.
Import Int.

(* ------------------------------------------------------------------------- *)
(** ** binary64 conversions *)

Module Double.

  (** (double)z : round to nearest, ties to even. *)
Definition of_int (z : Z) : float :=
    SF2Prim (binary_normalize 53 1024 z 0 false).

  (** (int64_t)f : truncation towards zero; a value that does not fit, an
      infinity or a NaN gives the x86-64 "integer indefinite" value. *)
Definition to_int64 (f : float) : Z :=
    match Prim2SF f with
    | S754_zero _ => 0
    | S754_finite s m e =>
        let v := if 0 <=? e then Z.pos m * 2 ^ e
                 else Z.quot (Z.pos m) (2 ^ (- e)) in
        let sv := if s then - v else v in
        if (int64_min <=? sv) && (sv <=? int64_max) then sv else int64_min
    | S754_infinity _ | S754_nan => int64_min
    end.

End Double.

(* ------------------------------------------------------------------------- *)
(** ** Sample buffers *)

Module ImMat.

  (** Modelled from the spec: ImGui::ImMat is declared outside AudioClip.cpp.
      The spec describes it as a dense multi-channel sample container exposing
      frame count, element size and a floating-point timestamp in seconds,
      whose zero-length value is the canonical "no data" value. *)
Record t : Type := mk {
    w : Z;
    h : Z;
    c : Z;
    elemsize : Z;
    time_stamp : float
  }.

  (** ImGui::ImMat() *)
Definition new : t :=
    {| w := 0; h := 0; c := 0; elemsize := 0; time_stamp := 0%float |}.

  (** create(w, h, c, elemsize) on a fresh buffer *)
Definition create (w_ h_ c_ elemsize_ : Z) : t :=
    {| w := w_; h := h_; c := c_; elemsize := elemsize_;
       time_stamp := 0%float |}.

  (** empty(): no element is held. *)
Definition empty (m : t) : bool := (w m * h m * c m =? 0).

Definition set_time_stamp (ts : float) (m : t) : t :=
    {| w := w m; h := h m; c := c m; elemsize := elemsize m;
       time_stamp := ts |}.

End ImMat.

(* ------------------------------------------------------------------------- *)
(** ** Exceptions and results *)

Inductive Exn : Type :=
| invalid_argument (what : string)
| runtime_error.

Inductive Result (A : Type) : Type :=
| Ok (a : A)
| Throw (e : Exn).
Arguments Ok {A} a.
Arguments Throw {A} e.

(* ------------------------------------------------------------------------- *)
(** ** The source session *)

Module MediaReader.

  (** What a call of ReadAudioSamples(mat, count, eof) gives back: the
      boolean result, the filled buffer, the eof flag (passed by reference,
      so the incoming value is an input of the call) and the session
      afterwards. *)
Record ReadReply (R : Type) : Type := mkReply {
    reply_ok : bool;
    reply_mat : ImMat.t;
    reply_eof : bool;
    reply_reader : R
  }.
Arguments mkReply {R}.
Arguments reply_ok {R}.
Arguments reply_mat {R}.
Arguments reply_eof {R}.
Arguments reply_reader {R}.

  (** Modelled from the spec: MediaReader and MediaParser are interfaces of
      the code base declared outside AudioClip.cpp.  The operations are the
      ones AudioClip.cpp calls; a session is a value of type [R] and each
      mutating call returns the session afterwards. *)
Class Interface (R : Type) : Type := {
    Parser : Type;
    GetBestAudioStreamIndex : Parser -> Z;
    CreateInstance : R;
    Open : Parser -> R -> bool * R;
    ConfigAudioReader : Z -> Z -> string -> R -> bool * R;
    Start : R -> bool * R;
    (** GetAudioStream()->duration, in seconds *)
    GetAudioStreamDuration : R -> float;
    GetAudioOutChannels : R -> Z;
    GetAudioOutSampleRate : R -> Z;
    GetAudioOutFrameSize : R -> Z;
    IsDirectionForward : R -> bool;
    SetDirection : bool -> R -> R;
    GetReadPos : R -> Z;
    SeekTo : Z -> R -> bool * R;
    ReadAudioSamples : Z -> bool -> R -> ReadReply R
  }.

  (** The part of the session's contract the clip relies on: seeking and
      reading change neither the configured output rate nor the direction,
      and a read never hands back more frames than were asked for. *)
Class Contract (R : Type) {MR : Interface R} : Prop := {
    SeekTo_rate : forall p r,
      GetAudioOutSampleRate (snd (SeekTo p r)) = GetAudioOutSampleRate r;
    SeekTo_direction : forall p r,
      IsDirectionForward (snd (SeekTo p r)) = IsDirectionForward r;
    Read_rate : forall n e r,
      GetAudioOutSampleRate (reply_reader (ReadAudioSamples n e r))
      = GetAudioOutSampleRate r;
    Read_direction : forall n e r,
      IsDirectionForward (reply_reader (ReadAudioSamples n e r))
      = IsDirectionForward r;
    Read_bounded : forall n e r,
      0 <= n ->
      ImMat.empty (reply_mat (ReadAudioSamples n e r)) = false ->
      0 <= ImMat.w (reply_mat (ReadAudioSamples n e r)) <= n
  }.

End MediaReader.

(* ------------------------------------------------------------------------- *)
(** ** AudioClip *)

(** AudioFilter: only FilterPcm(mat, pos, dur) is called on the read path;
    ApplyTo stores a back-pointer that AudioClip.cpp never reads. *)
Record AudioFilter : Type := mkFilter {
  FilterPcm : ImMat.t -> Z -> Z -> ImMat.t
}.

Module AudioClip.

Definition MAX_ALLOWED_MISMATCH_SAMPLES : Z := 200.

  (** The data members of AudioClip_AudioImpl (m_logger and m_hInfo are
      never read by the methods below). *)
Record t (R : Type) : Type := mk {
    m_id : Z;
    m_trackId : Z;
    m_srcReader : R;
    m_filter : option AudioFilter;
    m_srcDuration : Z;
    m_start : Z;
    m_startOffset : Z;
    m_endOffset : Z;
    m_padding : Z;
    m_pcmFrameSize : Z;
    m_readSamples : Z;
    m_totalSamples : Z;
    m_eof : bool;
    m_initSeek : bool
  }.
Arguments mk {R}.
Arguments m_id {R}.
Arguments m_trackId {R}.
Arguments m_srcReader {R}.
Arguments m_filter {R}.
Arguments m_srcDuration {R}.
Arguments m_start {R}.
Arguments m_startOffset {R}.
Arguments m_endOffset {R}.
Arguments m_padding {R}.
Arguments m_pcmFrameSize {R}.
Arguments m_readSamples {R}.
Arguments m_totalSamples {R}.
Arguments m_eof {R}.
Arguments m_initSeek {R}.

  (** What ReadAudioSamples hands back: the returned buffer and the two
      reference parameters after the call.  [srcEof] records the value of the
      local variable of that name when the call returns (false when the call
      returns before declaring it). *)
Record ReadResult : Type := mkRead {
    amat : ImMat.t;
    readSamples : Z;
    eof : bool;
    srcEof : bool
  }.

Section Methods.
Context {R : Type} {MR : MediaReader.Interface R}.

Local Abbreviation Clip := (t R).

    (** A method runs on the object and leaves it in some state, also when
        it throws. *)
Definition Method (A : Type) : Type := Clip -> Result A * Clip.

    (** Assignments to single members. *)
Definition set_trackId (v : Z) (x : Clip) : Clip :=
      mk (m_id x) v (m_srcReader x) (m_filter x) (m_srcDuration x) (m_start x)
         (m_startOffset x) (m_endOffset x) (m_padding x) (m_pcmFrameSize x)
         (m_readSamples x) (m_totalSamples x) (m_eof x) (m_initSeek x).
Definition set_srcReader (v : R) (x : Clip) : Clip :=
      mk (m_id x) (m_trackId x) v (m_filter x) (m_srcDuration x) (m_start x)
         (m_startOffset x) (m_endOffset x) (m_padding x) (m_pcmFrameSize x)
         (m_readSamples x) (m_totalSamples x) (m_eof x) (m_initSeek x).
Definition set_filter (v : option AudioFilter) (x : Clip) : Clip :=
      mk (m_id x) (m_trackId x) (m_srcReader x) v (m_srcDuration x) (m_start x)
         (m_startOffset x) (m_endOffset x) (m_padding x) (m_pcmFrameSize x)
         (m_readSamples x) (m_totalSamples x) (m_eof x) (m_initSeek x).
Definition set_start (v : Z) (x : Clip) : Clip :=
      mk (m_id x) (m_trackId x) (m_srcReader x) (m_filter x) (m_srcDuration x) v
         (m_startOffset x) (m_endOffset x) (m_padding x) (m_pcmFrameSize x)
         (m_readSamples x) (m_totalSamples x) (m_eof x) (m_initSeek x).
Definition set_startOffset (v : Z) (x : Clip) : Clip :=
      mk (m_id x) (m_trackId x) (m_srcReader x) (m_filter x) (m_srcDuration x)
         (m_start x) v (m_endOffset x) (m_padding x) (m_pcmFrameSize x)
         (m_readSamples x) (m_totalSamples x) (m_eof x) (m_initSeek x).
Definition set_endOffset (v : Z) (x : Clip) : Clip :=
      mk (m_id x) (m_trackId x) (m_srcReader x) (m_filter x) (m_srcDuration x)
         (m_start x) (m_startOffset x) v (m_padding x) (m_pcmFrameSize x)
         (m_readSamples x) (m_totalSamples x) (m_eof x) (m_initSeek x).
Definition set_pcmFrameSize (v : Z) (x : Clip) : Clip :=
      mk (m_id x) (m_trackId x) (m_srcReader x) (m_filter x) (m_srcDuration x)
         (m_start x) (m_startOffset x) (m_endOffset x) (m_padding x) v
         (m_readSamples x) (m_totalSamples x) (m_eof x) (m_initSeek x).
Definition set_readSamples (v : Z) (x : Clip) : Clip :=
      mk (m_id x) (m_trackId x) (m_srcReader x) (m_filter x) (m_srcDuration x)
         (m_start x) (m_startOffset x) (m_endOffset x) (m_padding x)
         (m_pcmFrameSize x) v (m_totalSamples x) (m_eof x) (m_initSeek x).
Definition set_totalSamples (v : Z) (x : Clip) : Clip :=
      mk (m_id x) (m_trackId x) (m_srcReader x) (m_filter x) (m_srcDuration x)
         (m_start x) (m_startOffset x) (m_endOffset x) (m_padding x)
         (m_pcmFrameSize x) (m_readSamples x) v (m_eof x) (m_initSeek x).
Definition set_eof (v : bool) (x : Clip) : Clip :=
      mk (m_id x) (m_trackId x) (m_srcReader x) (m_filter x) (m_srcDuration x)
         (m_start x) (m_startOffset x) (m_endOffset x) (m_padding x)
         (m_pcmFrameSize x) (m_readSamples x) (m_totalSamples x) v
         (m_initSeek x).
Definition set_initSeek (v : bool) (x : Clip) : Clip :=
      mk (m_id x) (m_trackId x) (m_srcReader x) (m_filter x) (m_srcDuration x)
         (m_start x) (m_startOffset x) (m_endOffset x) (m_padding x)
         (m_pcmFrameSize x) (m_readSamples x) (m_totalSamples x) (m_eof x) v.

    (** *** Accessors *)

Definition Id (x : Clip) : Z := m_id x.
Definition TrackId (x : Clip) : Z := m_trackId x.
Definition Start (x : Clip) : Z := m_start x.
Definition StartOffset (x : Clip) : Z := m_startOffset x.
Definition EndOffset (x : Clip) : Z := m_endOffset x.

    (** m_srcDuration+m_padding-m_startOffset-m_endOffset *)
Definition Duration (x : Clip) : Z :=
      sub64 (sub64 (add64 (m_srcDuration x) (m_padding x)) (m_startOffset x))
            (m_endOffset x).

    (** m_start+Duration() *)
Definition End (x : Clip) : Z := add64 (m_start x) (Duration x).

Definition OutSampleRate (x : Clip) : Z :=
      MediaReader.GetAudioOutSampleRate (m_srcReader x).

    (** m_readSamples*1000/m_srcReader->GetAudioOutSampleRate()+m_start *)
Definition ReadPos (x : Clip) : Z :=
      add64 (div64 (mul64 (m_readSamples x) 1000) (OutSampleRate x))
            (m_start x).

Definition LeftSamples (x : Clip) : Z :=
      let isForward := MediaReader.IsDirectionForward (m_srcReader x) in
      if isForward then
        if m_totalSamples x >? m_readSamples x
        then wrap_u32 (sub64 (m_totalSamples x) (m_readSamples x))
        else 0
      else
        if m_readSamples x >? m_totalSamples x then 0
        else if m_readSamples x >=? 0 then wrap_u32 (m_readSamples x)
        else 0.

    (** *** Construction *)

Definition AudioClip_AudioImpl
        (id : Z) (hParser : MediaReader.Parser)
        (outChannels outSampleRate : Z) (outSampleFormat : string)
        (start end_ startOffset endOffset : Z) : Result Clip :=
      if MediaReader.GetBestAudioStreamIndex hParser <? 0 then
        Throw (invalid_argument "Argument 'hParser' has NO AUDIO stream!")
      else
      let (opened, r1) := MediaReader.Open hParser MediaReader.CreateInstance in
      if negb opened then Throw runtime_error else
      let (configured, r2) :=
        MediaReader.ConfigAudioReader outChannels outSampleRate
                                      outSampleFormat r1 in
      if negb configured then Throw runtime_error else
      let srcDuration :=
        Double.to_int64
          (MediaReader.GetAudioStreamDuration r2 * Double.of_int 1000)%float in
      if startOffset <? 0 then
        Throw (invalid_argument "Argument 'startOffset' can NOT be NEGATIVE!")
      else if endOffset <? 0 then
        Throw (invalid_argument "Argument 'endOffset' can NOT be POSITIVE!")
      else if end_ <=? start then
        Throw (invalid_argument
          "Invalid arguments 'start/end', clip duration is NOT LARGER than 0!")
      else
      let padding :=
        sub64 (add64 (add64 (sub64 end_ start) startOffset) endOffset)
              srcDuration in
      let x0 :=
        mk id (-1) r2 None srcDuration start startOffset endOffset padding
           0 0 0 false false in
      let x1 :=
        set_totalSamples (div64 (mul64 (Duration x0) outSampleRate) 1000) x0 in
      let (started, r3) := MediaReader.Start r2 in
      if negb started then Throw runtime_error
      else Ok (set_srcReader r3 x1).

    (** *** Mutators *)

Definition SetTrackId (trackId : Z) : Method unit :=
      fun x => (Ok tt, set_trackId trackId x).

Definition SetStart (start : Z) : Method unit :=
      fun x => (Ok tt, set_start start x).

Definition ChangeStartOffset (startOffset : Z) : Method unit :=
      fun x =>
      if startOffset =? m_startOffset x then (Ok tt, x)
      else if startOffset <? 0 then
        (Throw (invalid_argument
                  "Argument 'startOffset' can NOT be NEGATIVE!"), x)
      else if add64 startOffset (m_endOffset x) >=? m_srcDuration x then
        (Throw (invalid_argument
           "Argument 'startOffset/endOffset', clip duration is NOT LARGER than 0!"),
         x)
      else
        let x1 := set_startOffset startOffset x in
        let newTotalSamples :=
          div64 (mul64 (Duration x1) (OutSampleRate x1)) 1000 in
        let x2 :=
          set_readSamples
            (add64 (m_readSamples x1)
                   (sub64 newTotalSamples (m_totalSamples x1))) x1 in
        (Ok tt, set_totalSamples newTotalSamples x2).

Definition ChangeEndOffset (endOffset : Z) : Method unit :=
      fun x =>
      if endOffset =? m_endOffset x then (Ok tt, x)
      else if endOffset <? 0 then
        (Throw (invalid_argument
                  "Argument 'endOffset' can NOT be POSITIVE!"), x)
      else if add64 (m_startOffset x) endOffset >=? m_srcDuration x then
        (Throw (invalid_argument
           "Argument 'startOffset/endOffset', clip duration is NOT LARGER than 0!"),
         x)
      else
        let x1 := set_endOffset endOffset x in
        (Ok tt,
         set_totalSamples
           (div64 (mul64 (Duration x1) (OutSampleRate x1)) 1000) x1).

Definition SeekTo (pos : Z) : Method unit :=
      fun x =>
      if (pos <? 0) || (pos >? Duration x) then (Ok tt, x)
      else
      let targetReadSamples := div64 (mul64 pos (OutSampleRate x)) 1000 in
      if targetReadSamples =? m_readSamples x then (Ok tt, x)
      else
      let seekPos := add64 pos (m_startOffset x) in
      let seekPos :=
        if seekPos >? m_srcDuration x then m_srcDuration x else seekPos in
      let (sought, r1) := MediaReader.SeekTo seekPos (m_srcReader x) in
      let x1 := set_srcReader r1 x in
      if negb sought then (Throw runtime_error, x1)
      else (Ok tt, set_eof false (set_readSamples targetReadSamples x1)).

Definition SetDirection (forward : bool) : Method unit :=
      fun x =>
      (Ok tt,
       set_srcReader (MediaReader.SetDirection forward (m_srcReader x)) x).

Definition SetFilter (filter : option AudioFilter) : Method unit :=
      fun x => (Ok tt, set_filter filter x).

(** *** Reading

    ReadAudioSamples(readSamples, eof) is one long method; it is embedded
    block by block, each block under the lines of AudioClip.cpp it covers,
    and put together in [ReadAudioSamples] below. *)

(** line 229: (int64_t)((double)m_readSamples/sampleRate*1000)+m_startOffset *)
Definition expectedReadPosOf (sampleRate : Z) (x : Clip) : Z :=
  add64 (Double.to_int64
           (Double.of_int (m_readSamples x) / Double.of_int sampleRate
            * Double.of_int 1000)%float)
        (m_startOffset x).

(** lines 272 and 289: (double)(expectedReadPos-m_startOffset+m_start)/1000 *)
Definition timeStampOf (expectedReadPos : Z) (x : Clip) : float :=
  (Double.of_int (add64 (sub64 expectedReadPos (m_startOffset x)) (m_start x))
   / Double.of_int 1000)%float.

(** lines 225-235: the frame size is fetched once, and the first read seeks
    the session when the clip does not begin near the head of the source. *)
Definition prepareRead (expectedReadPos : Z) (x : Clip) : Clip :=
  let x :=
    if m_pcmFrameSize x =? 0
    then set_pcmFrameSize
           (MediaReader.GetAudioOutFrameSize (m_srcReader x)) x
    else x in
  if m_initSeek x then x
  else
    set_initSeek true
      (if expectedReadPos >? 1000
       then set_srcReader
              (snd (MediaReader.SeekTo expectedReadPos (m_srcReader x))) x
       else x).

(** lines 236-274: if expected read position does not match the real read
    position, use silence or skip samples to compensate.  The result is
    (the skip read failed, the clip, amat, srcEof). *)
Definition compensate (sampleRate channels readSamples expectedReadPos : Z)
  (x : Clip) : bool * Clip * ImMat.t * bool :=
  let sourceReadPos := MediaReader.GetReadPos (m_srcReader x) in
  let readForward := MediaReader.IsDirectionForward (m_srcReader x) in
  let diff0 :=
    div64 (mul64 (abs64 (sub64 sourceReadPos expectedReadPos)) sampleRate)
          1000 in
  let mismatch := diff0 >? MAX_ALLOWED_MISMATCH_SAMPLES in
  let skip :=
    if mismatch
    then (if expectedReadPos >? sourceReadPos
          then readForward else negb readForward)
    else false in
  let diffSamples := if mismatch then diff0 else 0 in
  if diffSamples >? 0 then
    if skip then
      let skipSamples := diffSamples in
      let rep :=
        MediaReader.ReadAudioSamples skipSamples false (m_srcReader x) in
      (negb (MediaReader.reply_ok rep),
       set_srcReader (MediaReader.reply_reader rep) x,
       ImMat.new, MediaReader.reply_eof rep)
    else
      let silenceSamples :=
        if diffSamples >? readSamples then readSamples else diffSamples in
      let elemSize := Z.quot (m_pcmFrameSize x) (wrap_u32 channels) in
      let silenceMat :=
        ImMat.create (wrap_i32 silenceSamples) 1 channels elemSize in
      (false, x,
       ImMat.set_time_stamp (timeStampOf expectedReadPos x) silenceMat,
       false)
  else (false, x, ImMat.new, false).

(** lines 276-290: read from source.  The result is (the read failed, the
    clip, amat, srcEof). *)
Definition readFromSource (readSamples expectedReadPos : Z)
  (amat : ImMat.t) (srcEof : bool) (x : Clip)
  : bool * Clip * ImMat.t * bool :=
  if negb (m_eof x) && ImMat.empty amat then
    let toReadSamples := readSamples in
    let rep :=
      MediaReader.ReadAudioSamples toReadSamples srcEof (m_srcReader x) in
    (negb (MediaReader.reply_ok rep),
     set_srcReader (MediaReader.reply_reader rep) x,
     ImMat.set_time_stamp (timeStampOf expectedReadPos x)
                          (MediaReader.reply_mat rep),
     MediaReader.reply_eof rep)
  else (false, x, amat, srcEof).

(** lines 292-304: state update.  The result is (readSamples, eof, the
    clip). *)
Definition stateUpdate (readForward : bool) (amat : ImMat.t)
  (srcEof eof : bool) (x : Clip) : Z * bool * Clip :=
  let '(readSamples, x) :=
    if negb (ImMat.empty amat) then
      let n := wrap_u32 (ImMat.w amat) in
      (n, set_readSamples
            (add64 (m_readSamples x) (if readForward then n else neg64 n)) x)
    else (0, x) in
  let leftSamples2 := LeftSamples x in
  if (leftSamples2 =? 0) || srcEof
  then (readSamples, true, set_eof true x)
  else (readSamples, eof, x).

(** lines 306-307 *)
Definition applyFilter (readSamples : Z) (amat : ImMat.t) (x : Clip)
  : ImMat.t :=
  match m_filter x with
  | Some filter =>
      if readSamples >? 0 then
        FilterPcm filter amat
          (sub64 (Double.to_int64
                    (ImMat.time_stamp amat * Double.of_int 1000)%float)
                 (m_start x))
          (Duration x)
      else amat
  | None => amat
  end.

Definition ReadAudioSamples (readSamples : Z) (eof : bool)
  : Method ReadResult :=
  fun x =>
  let leftSamples := LeftSamples x in
  if m_eof x || (leftSamples =? 0) then
    (Ok (mkRead ImMat.new 0 true false), set_eof true x)
  else
  let readSamples :=
    if readSamples >? leftSamples then leftSamples else readSamples in
  let sampleRate := MediaReader.GetAudioOutSampleRate (m_srcReader x) in
  let channels :=
    wrap_i32 (MediaReader.GetAudioOutChannels (m_srcReader x)) in
  let expectedReadPos := expectedReadPosOf sampleRate x in
  let x := prepareRead expectedReadPos x in
  let readForward := MediaReader.IsDirectionForward (m_srcReader x) in
  let '(skipFailed, x, amat, srcEof) :=
    compensate sampleRate channels readSamples expectedReadPos x in
  if skipFailed then (Throw runtime_error, x) else
  let '(readFailed, x, amat, srcEof) :=
    readFromSource readSamples expectedReadPos amat srcEof x in
  if readFailed then (Throw runtime_error, x) else
  let '(readSamples, eof, x) := stateUpdate readForward amat srcEof eof x in
  (Ok (mkRead (applyFilter readSamples amat x) readSamples eof srcEof), x).

(** *** Cloning

    Clone(outChannels, outSampleRate, outSampleFormat) builds a new clip
    with the constructor, from m_srcReader->GetMediaParser().  That call is
    outside the interface above; the parser it returns is a parameter. *)
Definition Clone (hParser : MediaReader.Parser)
    (outChannels outSampleRate : Z) (outSampleFormat : string) (x : Clip)
  : Result Clip :=
  AudioClip_AudioImpl (m_id x) hParser outChannels outSampleRate
    outSampleFormat (m_start x) (End x) (m_startOffset x) (m_endOffset x).

(** *** Reachable states

    The calls a holder of the clip can make, and the states they lead to.
    A call that throws leaves the object in the state it had reached. *)

Inductive Call : Type :=
| CallSetTrackId (trackId : Z)
| CallSetStart (start : Z)
| CallChangeStartOffset (startOffset : Z)
| CallChangeEndOffset (endOffset : Z)
| CallSeekTo (pos : Z)
| CallReadAudioSamples (readSamples : Z) (eof : bool)
| CallSetDirection (forward : bool)
| CallSetFilter (filter : option AudioFilter).

Definition exec (k : Call) (x : Clip) : Clip :=
  match k with
  | CallSetTrackId v => snd (SetTrackId v x)
  | CallSetStart v => snd (SetStart v x)
  | CallChangeStartOffset v => snd (ChangeStartOffset v x)
  | CallChangeEndOffset v => snd (ChangeEndOffset v x)
  | CallSeekTo v => snd (SeekTo v x)
  | CallReadAudioSamples n e => snd (ReadAudioSamples n e x)
  | CallSetDirection b => snd (SetDirection b x)
  | CallSetFilter f => snd (SetFilter f x)
  end.

Definition run (ks : list Call) (x : Clip) : Clip :=
  fold_left (fun y k => exec k y) ks x.

Inductive Reachable (x0 : Clip) : Clip -> Prop :=
| Reachable_init : Reachable x0 x0
| Reachable_call : forall x k, Reachable x0 x -> Reachable x0 (exec k x).

End Methods.
End AudioClip.

(* ------------------------------------------------------------------------- *)
(** ** AudioTransition and AudioOverlap *)

(** AudioTransition: MixTwoAudioMats(amat1, amat2, pos); ApplyTo stores a
    back-pointer to the overlap that is never read. *)
Record AudioTransition : Type := mkTransition {
  MixTwoAudioMats : ImMat.t -> ImMat.t -> Z -> ImMat.t
}.

Definition DefaultAudioTransition_Impl : AudioTransition :=
  {| MixTwoAudioMats := fun amat1 amat2 pos => amat2 |}.

Module AudioOverlap.

(** An AudioClip::Holder is a shared pointer: several holders may name the
    same clip object.  Clips live in a store indexed by holders, and a call
    through a holder updates the object for everyone. *)
Definition Holder : Type := nat.

Record t : Type := mk {
  m_id : Z;
  m_frontClip : Holder;
  m_rearClip : Holder;
  m_start : Z;
  m_end : Z;
  m_transition : AudioTransition
}.

Record ReadResult : Type := mkRead {
  amat : ImMat.t;
  readSamples : Z;
  eof : bool
}.

Section Methods.
Context {R : Type} {MR : MediaReader.Interface R}.

Definition Store : Type := Holder -> AudioClip.t R.

Definition store_set (h : Holder) (x : AudioClip.t R) (st : Store) : Store :=
  fun h' => if Nat.eqb h' h then x else st h'.

(** hClip->method(...) *)
Definition call {A : Type} (h : Holder) (m : AudioClip.Method A)
  (st : Store) : Result A * Store :=
  let (r, x) := m (st h) in (r, store_set h x st).

Definition set_window (front rear : Holder) (start end_ : Z) (o : t) : t :=
  mk (m_id o) front rear start end_ (m_transition o).

Definition Update (o : t) (st : Store) : t :=
  let hClip1 := m_frontClip o in
  let hClip2 := m_rearClip o in
  let (front, rear) :=
    if AudioClip.Start (st hClip1) <=? AudioClip.Start (st hClip2)
    then (hClip1, hClip2) else (hClip2, hClip1) in
  if AudioClip.End (st front) <=? AudioClip.Start (st rear) then
    set_window front rear 0 0 o
  else
    set_window front rear
      (AudioClip.Start (st rear))
      (if AudioClip.End (st front) <=? AudioClip.End (st rear)
       then AudioClip.End (st front) else AudioClip.End (st rear))
      o.

Definition AudioOverlap_Impl (id : Z) (hClip1 hClip2 : Holder) (st : Store)
  : t :=
  Update (mk id hClip1 hClip2 0 0 DefaultAudioTransition_Impl) st.

Definition GetTransition (o : t) : AudioTransition := m_transition o.

Definition SetTransition (hTrans : option AudioTransition) (o : t) : t :=
  match hTrans with
  | Some trans =>
      mk (m_id o) (m_frontClip o) (m_rearClip o) (m_start o) (m_end o) trans
  | None =>
      mk (m_id o) (m_frontClip o) (m_rearClip o) (m_start o) (m_end o)
         DefaultAudioTransition_Impl
  end.

Definition Id (o : t) : Z := m_id o.
Definition SetId (id : Z) (o : t) : t :=
  mk id (m_frontClip o) (m_rearClip o) (m_start o) (m_end o) (m_transition o).
Definition Start (o : t) : Z := m_start o.
Definition End (o : t) : Z := m_end o.
Definition Duration (o : t) : Z := sub64 (m_end o) (m_start o).
Definition FrontClip (o : t) : Holder := m_frontClip o.
Definition RearClip (o : t) : Holder := m_rearClip o.

Definition SeekTo (pos : Z) (o : t) (st : Store) : Result unit * Store :=
  if pos >? Duration o then (Ok tt, st)
  else
  let pos := if pos <? 0 then 0 else pos in
  let pos1 :=
    add64 pos (sub64 (Start o) (AudioClip.Start (st (m_frontClip o)))) in
  match call (m_frontClip o) (AudioClip.SeekTo pos1) st with
  | (Throw e, st1) => (Throw e, st1)
  | (Ok _, st1) =>
      let pos2 :=
        add64 pos (sub64 (Start o) (AudioClip.Start (st1 (m_rearClip o)))) in
      call (m_rearClip o) (AudioClip.SeekTo pos2) st1
  end.

Definition ReadAudioSamples (readSamples : Z) (eof : bool) (o : t)
  (st : Store) : Result ReadResult * Store :=
  let leftSamples1 := AudioClip.LeftSamples (st (m_frontClip o)) in
  let readSamples :=
    if leftSamples1 <? readSamples then leftSamples1 else readSamples in
  let leftSamples2 := AudioClip.LeftSamples (st (m_rearClip o)) in
  let readSamples :=
    if leftSamples2 <? readSamples then leftSamples2 else readSamples in
  if readSamples =? 0 then (Ok (mkRead ImMat.new readSamples true), st)
  else
  let eof1 := false in
  match call (m_frontClip o)
             (AudioClip.ReadAudioSamples readSamples eof1) st with
  | (Throw e, st1) => (Throw e, st1)
  | (Ok r1, st1) =>
      let amat1 := AudioClip.amat r1 in
      let readSamples := AudioClip.readSamples r1 in
      let eof1 := AudioClip.eof r1 in
      let eof2 := false in
      match call (m_rearClip o)
                 (AudioClip.ReadAudioSamples readSamples eof2) st1 with
      | (Throw e, st2) => (Throw e, st2)
      | (Ok r2, st2) =>
          let amat2 := AudioClip.amat r2 in
          let readSamples := AudioClip.readSamples r2 in
          let eof2 := AudioClip.eof r2 in
          let transition := m_transition o in
          let amat :=
            MixTwoAudioMats transition amat1 amat2
              (Double.to_int64
                 (ImMat.time_stamp amat1 * Double.of_int 1000)%float) in
          (Ok (mkRead amat readSamples (eof1 || eof2)), st2)
      end
  end.

(** AudioOverlap::HasOverlap(hClip1, hClip2) *)
Definition HasOverlap (hClip1 hClip2 : Holder) (st : Store) : bool :=
  let c1 := st hClip1 in
  let c2 := st hClip2 in
  ((AudioClip.Start c1 >=? AudioClip.Start c2)
   && (AudioClip.Start c1 <? AudioClip.End c2))
  || ((AudioClip.End c1 >? AudioClip.Start c2)
      && (AudioClip.End c1 <=? AudioClip.End c2))
  || ((AudioClip.Start c1 <? AudioClip.Start c2)
      && (AudioClip.End c1 >? AudioClip.End c2)).

End Methods.
End AudioOverlap.

(* ------------------------------------------------------------------------- *)
(** ** A simulated source session

    A well-behaved session over a source of [length_ms] milliseconds: seeks
    land exactly, reads hand back every frame that is asked for as long as
    the source has frames left in the reading direction.  It is used to run
    the model on concrete inputs. *)

Module Sim.

Record parser : Type := mkParser {
  audio_stream_index : Z;
  source_length_ms : Z
}.

Record t : Type := mk {
  channels : Z;
  sampleRate : Z;
  frameSize : Z;
  forward : bool;
  length_ms : Z;
  (** read position, in frames *)
  pos : Z
}.

Definition fresh : t := mk 0 0 0 true 0 0.

Definition total (r : t) : Z := Z.quot (length_ms r * sampleRate r) 1000.

Definition readPosMs (r : t) : Z := Z.quot (pos r * 1000) (sampleRate r).

Definition open (p : parser) (r : t) : bool * t :=
  (true, mk (channels r) (sampleRate r) (frameSize r) (forward r)
            (source_length_ms p) 0).

Definition config (ch rate : Z) (fmt : string) (r : t) : bool * t :=
  if (0 <? ch) && (0 <? rate)
  then (true, mk ch rate (4 * ch) (forward r) (length_ms r) (pos r))
  else (false, r).

Definition seek (ms : Z) (r : t) : bool * t :=
  if (0 <=? ms) && (ms <=? length_ms r)
  then (true, mk (channels r) (sampleRate r) (frameSize r) (forward r)
                 (length_ms r) (Z.quot (ms * sampleRate r) 1000))
  else (false, r).

Definition setDirection (fwd : bool) (r : t) : t :=
  mk (channels r) (sampleRate r) (frameSize r) fwd (length_ms r) (pos r).

Definition read (n : Z) (eof : bool) (r : t) : MediaReader.ReadReply t :=
  let avail := if forward r then total r - pos r else pos r in
  let d := Z.max 0 (Z.min n avail) in
  let m :=
    ImMat.set_time_stamp
      (Double.of_int (readPosMs r) / Double.of_int 1000)%float
      (ImMat.create d 1 (channels r) 4) in
  MediaReader.mkReply true m (eof || (d <? n))
    (mk (channels r) (sampleRate r) (frameSize r) (forward r) (length_ms r)
        (if forward r then pos r + d else pos r - d)).

#[global] Instance reader : MediaReader.Interface t := {
  MediaReader.Parser := parser;
  MediaReader.GetBestAudioStreamIndex := audio_stream_index;
  MediaReader.CreateInstance := fresh;
  MediaReader.Open := open;
  MediaReader.ConfigAudioReader := config;
  MediaReader.Start := fun r => (true, r);
  MediaReader.GetAudioStreamDuration :=
    fun r => (Double.of_int (length_ms r) / Double.of_int 1000)%float;
  MediaReader.GetAudioOutChannels := channels;
  MediaReader.GetAudioOutSampleRate := sampleRate;
  MediaReader.GetAudioOutFrameSize := frameSize;
  MediaReader.IsDirectionForward := forward;
  MediaReader.SetDirection := setDirection;
  MediaReader.GetReadPos := readPosMs;
  MediaReader.SeekTo := seek;
  MediaReader.ReadAudioSamples := read
}.

End Sim.


(* ------------------------------------------------------------------------- *)
(** ** Concrete clips over the simulated session *)

Module Example.

Definition make (source_ms rate start end_ startOffset endOffset : Z)
  : Result (AudioClip.t Sim.t) :=
  AudioClip.AudioClip_AudioImpl (MR := Sim.reader)
    1 (Sim.mkParser 0 source_ms) 2 rate "flt" start end_
    startOffset endOffset.

Definition blank : AudioClip.t Sim.t :=
  AudioClip.mk 0 (-1) Sim.fresh None 0 0 0 0 0 0 0 0 false false.

Definition built (r : Result (AudioClip.t Sim.t)) : AudioClip.t Sim.t :=
  match r with Ok x => x | Throw _ => blank end.

(** The clip of the specification's scenario: a 5000 ms source shown in full
    at [0,5000), 48000 Hz. *)
Definition clipA : AudioClip.t Sim.t := built (make 5000 48000 0 5000 0 0).

(** clipA once it has been read to its end. *)
Definition clipA_done : AudioClip.t Sim.t :=
  AudioClip.run [AudioClip.CallReadAudioSamples 300000 false] clipA.

(** The second clip of the scenario, at [3000,8000). *)
Definition clipB : AudioClip.t Sim.t := built (make 5000 48000 3000 8000 0 0).

(** The same source at 44100 Hz. *)
Definition clip44 : AudioClip.t Sim.t := built (make 5000 44100 0 5000 0 0).

(** A clip whose span exceeds its source (1000 ms of source shown at
    [0,5000), padding 4000), after SeekTo(3000) and SetDirection(false). *)
Definition clipP : AudioClip.t Sim.t := built (make 1000 48000 0 5000 0 0).
Definition clipP_back : AudioClip.t Sim.t :=
  AudioClip.run [AudioClip.CallSeekTo 3000; AudioClip.CallSetDirection false]
                clipP.

(** A 10000 ms clip at [0,10000). *)
Definition clipLong : AudioClip.t Sim.t :=
  built (make 10000 48000 0 10000 0 0).

(** A clip of 100 ms placed at [5000,5100) over a 5000 ms source (padding
    -4900), whose head is then trimmed by 1000 ms. *)
Definition clipShort : AudioClip.t Sim.t :=
  built (make 5000 48000 5000 5100 0 0).
Definition clipTrimmed : AudioClip.t Sim.t :=
  AudioClip.run [AudioClip.CallChangeStartOffset 1000] clipShort.

(** A store holding [a] under holder 0 and [b] under every other holder. *)
Definition store2 (a b : AudioClip.t Sim.t)
  : AudioOverlap.Store (R := Sim.t) :=
  fun h => match h with O => a | S _ => b end.

Definition overlap01 : AudioOverlap.t :=
  AudioOverlap.mk 1 0%nat 1%nat 0 0 DefaultAudioTransition_Impl.

End Example.

(* ------------------------------------------------------------------------- *)
(** ** A simulated session whose reads fail

    The simulated session of [Sim], except that every ReadAudioSamples call
    reports a failure and hands back nothing.  It is used to run the paths
    of the model that throw. *)

Module Faulty.

Record t : Type := mk { session : Sim.t }.

Definition lift (f : Sim.t -> bool * Sim.t) (r : t) : bool * t :=
  let (ok, s) := f (session r) in (ok, mk s).

Definition read (n : Z) (eof : bool) (r : t) : MediaReader.ReadReply t :=
  MediaReader.mkReply false ImMat.new eof r.

#[global] Instance reader : MediaReader.Interface t := {
  MediaReader.Parser := Sim.parser;
  MediaReader.GetBestAudioStreamIndex := Sim.audio_stream_index;
  MediaReader.CreateInstance := mk Sim.fresh;
  MediaReader.Open := fun p => lift (Sim.open p);
  MediaReader.ConfigAudioReader := fun ch rate fmt => lift (Sim.config ch rate fmt);
  MediaReader.Start := fun r => (true, r);
  MediaReader.GetAudioStreamDuration :=
    fun r =>
      (Double.of_int (Sim.length_ms (session r)) / Double.of_int 1000)%float;
  MediaReader.GetAudioOutChannels := fun r => Sim.channels (session r);
  MediaReader.GetAudioOutSampleRate := fun r => Sim.sampleRate (session r);
  MediaReader.GetAudioOutFrameSize := fun r => Sim.frameSize (session r);
  MediaReader.IsDirectionForward := fun r => Sim.forward (session r);
  MediaReader.SetDirection := fun fwd r => mk (Sim.setDirection fwd (session r));
  MediaReader.GetReadPos := fun r => Sim.readPosMs (session r);
  MediaReader.SeekTo := fun ms => lift (Sim.seek ms);
  MediaReader.ReadAudioSamples := read
}.

Definition make (source_ms rate start end_ startOffset endOffset : Z)
  : Result (AudioClip.t t) :=
  AudioClip.AudioClip_AudioImpl (MR := reader)
    1 (Sim.mkParser 0 source_ms) 2 rate "flt" start end_
    startOffset endOffset.

Definition blank : AudioClip.t t :=
  AudioClip.mk 0 (-1) (mk Sim.fresh) None 0 0 0 0 0 0 0 0 false false.

Definition built (r : Result (AudioClip.t t)) : AudioClip.t t :=
  match r with Ok x => x | Throw _ => blank end.

(** The two clips of the scenario, over failing sessions. *)
Definition clipA : AudioClip.t t := built (make 5000 48000 0 5000 0 0).
Definition clipB : AudioClip.t t := built (make 5000 48000 3000 8000 0 0).

Definition store2 (a b : AudioClip.t t) : AudioOverlap.Store (R := t) :=
  fun h => match h with O => a | S _ => b end.

End Faulty.

(* ------------------------------------------------------------------------- *)
(** ** Vocabulary of the properties *)

Section ClipVocabulary.
Context {R : Type} {MR : MediaReader.Interface R}.

Local Abbreviation Clip := (AudioClip.t R).

(** Members that only the constructor writes. *)
Definition same_source (x x' : Clip) : Prop :=
  AudioClip.m_srcDuration x' = AudioClip.m_srcDuration x
  /\ AudioClip.m_padding x' = AudioClip.m_padding x.

(** Members that ReadAudioSamples leaves alone. *)
Definition read_frame (x x' : Clip) : Prop :=
  AudioClip.m_id x' = AudioClip.m_id x
  /\ AudioClip.m_trackId x' = AudioClip.m_trackId x
  /\ AudioClip.m_filter x' = AudioClip.m_filter x
  /\ AudioClip.m_srcDuration x' = AudioClip.m_srcDuration x
  /\ AudioClip.m_start x' = AudioClip.m_start x
  /\ AudioClip.m_startOffset x' = AudioClip.m_startOffset x
  /\ AudioClip.m_endOffset x' = AudioClip.m_endOffset x
  /\ AudioClip.m_padding x' = AudioClip.m_padding x
  /\ AudioClip.m_totalSamples x' = AudioClip.m_totalSamples x.

(** Members that the session-facing blocks of ReadAudioSamples leave alone:
    everything except m_srcReader, m_pcmFrameSize and m_initSeek. *)
Definition session_only (x x' : Clip) : Prop :=
  AudioClip.m_id x' = AudioClip.m_id x
  /\ AudioClip.m_trackId x' = AudioClip.m_trackId x
  /\ AudioClip.m_filter x' = AudioClip.m_filter x
  /\ AudioClip.m_srcDuration x' = AudioClip.m_srcDuration x
  /\ AudioClip.m_start x' = AudioClip.m_start x
  /\ AudioClip.m_startOffset x' = AudioClip.m_startOffset x
  /\ AudioClip.m_endOffset x' = AudioClip.m_endOffset x
  /\ AudioClip.m_padding x' = AudioClip.m_padding x
  /\ AudioClip.m_readSamples x' = AudioClip.m_readSamples x
  /\ AudioClip.m_totalSamples x' = AudioClip.m_totalSamples x
  /\ AudioClip.m_eof x' = AudioClip.m_eof x.

(** The number of frames a buffer stands for on the read path (lines
    293-301). *)
Definition delivered (m : ImMat.t) : Z :=
  if ImMat.empty m then 0 else wrap_u32 (ImMat.w m).

(** LeftSamples() as a function of the direction and the two counters. *)
Definition leftOf (fwd : bool) (T R0 : Z) : Z :=
  if fwd then
    if T >? R0 then wrap_u32 (sub64 T R0) else 0
  else
    if R0 >? T then 0
    else if R0 >=? 0 then wrap_u32 R0
    else 0.





(** The sample-domain equivalent of a position, as SeekTo computes it
    (line 198). *)
Definition targetReadSamples (x : Clip) (pos : Z) : Z :=
  div64 (mul64 pos (AudioClip.OutSampleRate x)) 1000.

(** startOffset + endOffset < sourceDuration *)
Definition offsets_invariant (x : Clip) : Prop :=
  AudioClip.m_startOffset x + AudioClip.m_endOffset x
  < AudioClip.m_srcDuration x.

End ClipVocabulary.

Section OverlapVocabulary.
Context {R : Type} {MR : MediaReader.Interface R}.

Local Abbreviation Clip := (AudioClip.t R).
Local Abbreviation Store := (AudioOverlap.Store (R := R)).

(** The timeline ranges [Start(), End()) of two clips share a point. *)
Definition ranges_intersect (a b : Clip) : Prop :=
  exists t : Z,
    AudioClip.Start a <= t < AudioClip.End a
    /\ AudioClip.Start b <= t < AudioClip.End b.

(** The overlap predicate in the words of the specification: either one's
    start falls within the other's [start,end), or either one's end falls
    within the other's (start,end], or one fully contains the other. *)
Definition overlap_predicate (a b : Clip) : Prop :=
  let sa := AudioClip.Start a in
  let ea := AudioClip.End a in
  let sb := AudioClip.Start b in
  let eb := AudioClip.End b in
  (sb <= sa < eb \/ sa <= sb < ea)
  \/ (sb < ea <= eb \/ sa < eb <= ea)
  \/ ((sa <= sb /\ eb <= ea) \/ (sb <= sa /\ ea <= eb)).

(** The count Overlap.ReadAudioSamples settles on before it reads: the
    request clamped to what either clip has left (lines 511-516). *)
Definition clampedCount (n : Z) (o : AudioOverlap.t) (st : Store) : Z :=
  Z.min (Z.min n (AudioClip.LeftSamples (st (AudioOverlap.m_frontClip o))))
        (AudioClip.LeftSamples (st (AudioOverlap.m_rearClip o))).

(** What C7 says of Update(), word for word. *)
Definition Update_postcondition (o : AudioOverlap.t) (st : Store) : Prop :=
  let o' := AudioOverlap.Update o st in
  let front := st (AudioOverlap.m_frontClip o') in
  let rear := st (AudioOverlap.m_rearClip o') in
  AudioClip.Start front <= AudioClip.Start rear
  /\ AudioOverlap.m_start o' <= AudioOverlap.m_end o'
  /\ ((AudioOverlap.m_start o' = 0 /\ AudioOverlap.m_end o' = 0)
      <-> ~ ranges_intersect front rear)
  /\ (ranges_intersect front rear ->
      AudioOverlap.m_start o' = AudioClip.Start rear
      /\ AudioOverlap.m_end o'
         = Z.min (AudioClip.End front) (AudioClip.End rear)).

End OverlapVocabulary.


(** What C3 says of an in-range SeekTo, word for word. *)
Definition SeekTo_as_stated (x : AudioClip.t Sim.t) (pos : Z) : Prop :=
  0 <= pos <= AudioClip.Duration x ->
  let x' := snd (AudioClip.SeekTo pos x) in
  AudioClip.m_srcReader x'
  = snd (MediaReader.SeekTo
           (Z.min (pos + AudioClip.m_startOffset x) (AudioClip.m_srcDuration x))
           (AudioClip.m_srcReader x))
  /\ AudioClip.m_readSamples x' = pos * AudioClip.OutSampleRate x / 1000
  /\ AudioClip.m_eof x' = false
  /\ Z.abs (AudioClip.ReadPos x' - (AudioClip.m_start x + pos))
     * AudioClip.OutSampleRate x' <= 1000.

(** What C5 says of ChangeStartOffset, word for word. *)
Definition ChangeStartOffset_as_stated (x : AudioClip.t Sim.t) (v : Z)
  : Prop :=
  0 <= v ->
  v + AudioClip.m_endOffset x < AudioClip.m_srcDuration x ->
  let x' := snd (AudioClip.ChangeStartOffset v x) in
  AudioClip.LeftSamples x' - AudioClip.LeftSamples x
  = AudioClip.m_totalSamples x' - AudioClip.m_totalSamples x.

(* ========================================================================= *)
(** * Properties *)

(* ------------------------------------------------------------------------- *)
(** ** Wrap-around arithmetic *)

Lemma wrap64_range : forall z, is_int64 (wrap64 z).
Proof.
  intro z. unfold is_int64, wrap64, int64_min, int64_max.
  pose proof (Z.mod_pos_bound (z + 2 ^ 63) (2 ^ 64) ltac:(lia)). lia.
Qed.

Lemma wrap64_id : forall z, is_int64 z -> wrap64 z = z.
Proof.
  intros z Hz. unfold is_int64, int64_min, int64_max in Hz. unfold wrap64.
  rewrite Z.mod_small by lia. lia.
Qed.

Lemma wrap64_congr : forall a b,
  a mod 2 ^ 64 = b mod 2 ^ 64 -> wrap64 a = wrap64 b.
Proof.
  intros a b Hab. unfold wrap64.
  rewrite (Z.add_mod a), (Z.add_mod b), Hab by lia. reflexivity.
Qed.

Lemma wrap64_mod : forall z, wrap64 z mod 2 ^ 64 = z mod 2 ^ 64.
Proof.
  intro z. unfold wrap64.
  rewrite Zminus_mod, Zmod_mod, <- Zminus_mod.
  f_equal. lia.
Qed.

Lemma wrap64_add_l : forall a b, wrap64 (wrap64 a + b) = wrap64 (a + b).
Proof.
  intros a b. apply wrap64_congr.
  rewrite Z.add_mod, wrap64_mod, <- Z.add_mod by lia. reflexivity.
Qed.

Lemma wrap64_add_r : forall a b, wrap64 (a + wrap64 b) = wrap64 (a + b).
Proof.
  intros a b. rewrite (Z.add_comm a), wrap64_add_l. f_equal. lia.
Qed.

Lemma wrap64_sub_l : forall a b, wrap64 (wrap64 a - b) = wrap64 (a - b).
Proof.
  intros a b. unfold Z.sub. apply wrap64_add_l.
Qed.

Lemma wrap64_sub_r : forall a b, wrap64 (a - wrap64 b) = wrap64 (a - b).
Proof.
  intros a b. apply wrap64_congr.
  rewrite Zminus_mod, wrap64_mod, <- Zminus_mod. reflexivity.
Qed.

Lemma wrap_u32_wrap64 : forall z, wrap_u32 (wrap64 z) = wrap_u32 z.
Proof.
  intro z. unfold wrap_u32.
  replace (2 ^ 64) with (2 ^ 32 * 2 ^ 32) in * by reflexivity.
  pose proof (wrap64_mod z) as Hm.
  replace (2 ^ 64) with (2 ^ 32 * 2 ^ 32) in Hm by reflexivity.
  rewrite !Z.rem_mul_r in Hm by lia.
  assert (Hlt : forall y, 0 <= y mod 2 ^ 32 < 2 ^ 32)
    by (intro y; apply Z.mod_pos_bound; lia).
  pose proof (Hlt z). pose proof (Hlt (wrap64 z)).
  pose proof (Z.mod_pos_bound (wrap64 z / 2 ^ 32) (2 ^ 32) ltac:(lia)).
  pose proof (Z.mod_pos_bound (z / 2 ^ 32) (2 ^ 32) ltac:(lia)).
  nia.
Qed.

Lemma wrap_u32_range : forall z, is_uint32 (wrap_u32 z).
Proof.
  intro z. unfold is_uint32, wrap_u32, uint32_max.
  pose proof (Z.mod_pos_bound z (2 ^ 32) ltac:(lia)). lia.
Qed.

Lemma wrap_u32_id : forall z, is_uint32 z -> wrap_u32 z = z.
Proof.
  intros z Hz. unfold is_uint32, uint32_max in Hz. unfold wrap_u32.
  apply Z.mod_small. lia.
Qed.

Lemma wrap_u32_wrap_i32 : forall z, wrap_u32 (wrap_i32 z) = wrap_u32 z.
Proof.
  intro z. unfold wrap_u32, wrap_i32.
  rewrite Zminus_mod, Zmod_mod, <- Zminus_mod. f_equal. lia.
Qed.

Lemma wrap_u32_le : forall z, 0 <= z -> wrap_u32 z <= z.
Proof.
  intros z Hz. unfold wrap_u32. apply Z.mod_le; lia.
Qed.


Lemma wrap64_eqm : forall z, eqm (2 ^ 64) (wrap64 z) z.
Proof. intro z. apply wrap64_mod. Qed.

(** From here on the wrap-around functions are used through the lemmas
    above only. *)
#[local] Opaque wrap64 wrap_u32 wrap_i32.

(** int64 arithmetic is arithmetic modulo 2^64: equations between wrapped
    expressions are ring equations once the inner reductions are erased. *)
#[local] Instance eqm64_equiv : Equivalence (eqm (2 ^ 64)) :=
  eqm_setoid (2 ^ 64).
#[local] Instance eqm64_add :
  Proper (eqm (2 ^ 64) ==> eqm (2 ^ 64) ==> eqm (2 ^ 64)) Z.add :=
  Zplus_eqm (2 ^ 64).
#[local] Instance eqm64_sub :
  Proper (eqm (2 ^ 64) ==> eqm (2 ^ 64) ==> eqm (2 ^ 64)) Z.sub :=
  Zminus_eqm (2 ^ 64).
#[local] Instance eqm64_mul :
  Proper (eqm (2 ^ 64) ==> eqm (2 ^ 64) ==> eqm (2 ^ 64)) Z.mul :=
  Zmult_eqm (2 ^ 64).
#[local] Instance eqm64_opp :
  Proper (eqm (2 ^ 64) ==> eqm (2 ^ 64)) Z.opp :=
  Zopp_eqm (2 ^ 64).

Ltac wrap64_ring :=
  apply wrap64_congr;
  match goal with
  | |- ?a mod _ = ?b mod _ => change (eqm (2 ^ 64) a b)
  end;
  repeat rewrite wrap64_eqm;
  unfold eqm; apply (f_equal (fun t => t mod 2 ^ 64)); ring.

(* ------------------------------------------------------------------------- *)
(** ** Clips *)

Section ClipProperties.
Context {R : Type} {MR : MediaReader.Interface R}.

Local Abbreviation Clip := (AudioClip.t R).

Lemma Duration_wrap : forall x : Clip,
  AudioClip.Duration x
  = wrap64 (AudioClip.m_srcDuration x + AudioClip.m_padding x
            - AudioClip.m_startOffset x - AudioClip.m_endOffset x).
Proof.
  intro x. unfold AudioClip.Duration, sub64, add64. wrap64_ring.
Qed.

Lemma session_only_refl : forall x : Clip, session_only x x.
Proof. intro x. unfold session_only. repeat split. Qed.

Lemma session_only_trans : forall x y z : Clip,
  session_only x y -> session_only y z -> session_only x z.
Proof.
  unfold session_only. intros x y z Hxy Hyz.
  decompose [and] Hxy. decompose [and] Hyz.
  repeat split; congruence.
Qed.

Lemma session_only_set_srcReader : forall r (x : Clip),
  session_only x (AudioClip.set_srcReader r x).
Proof. intros r x. unfold session_only. cbn. repeat split. Qed.

Lemma session_only_set_pcmFrameSize : forall v (x : Clip),
  session_only x (AudioClip.set_pcmFrameSize v x).
Proof. intros v x. unfold session_only. cbn. repeat split. Qed.

Lemma session_only_set_initSeek : forall v (x : Clip),
  session_only x (AudioClip.set_initSeek v x).
Proof. intros v x. unfold session_only. cbn. repeat split. Qed.

Create HintDb clip.

#[local] Hint Resolve session_only_refl session_only_set_srcReader
  session_only_set_pcmFrameSize session_only_set_initSeek : clip.

Lemma prepareRead_session_only : forall p (x : Clip),
  session_only x (AudioClip.prepareRead p x).
Proof.
  intros p x. unfold AudioClip.prepareRead.
  set (x1 := if AudioClip.m_pcmFrameSize x =? 0 then _ else x).
  assert (H1 : session_only x x1)
    by (subst x1; destruct (AudioClip.m_pcmFrameSize x =? 0); auto with clip).
  destruct (AudioClip.m_initSeek x1); [exact H1|].
  eapply session_only_trans; [exact H1|].
  eapply session_only_trans; [|apply session_only_set_initSeek].
  destruct (p >? 1000); auto with clip.
Qed.

Lemma compensate_session_only : forall rate ch n p (x : Clip) sf x' m se,
  AudioClip.compensate rate ch n p x = (sf, x', m, se) ->
  session_only x x'.
Proof.
  intros rate ch n p x sf x' m se. unfold AudioClip.compensate.
  cbv zeta.
  repeat lazymatch goal with
         | |- (if ?b then _ else _) = _ -> _ => destruct b
         end;
    intro E; inversion E; subst; auto with clip.
Qed.

Lemma readFromSource_session_only :
  forall n p m0 se0 (x : Clip) rf x' m se,
  AudioClip.readFromSource n p m0 se0 x = (rf, x', m, se) ->
  session_only x x'.
Proof.
  intros n p m0 se0 x rf x' m se. unfold AudioClip.readFromSource.
  lazymatch goal with
  | |- (if ?b then _ else _) = _ -> _ => destruct b
  end;
    intro E; inversion E; subst; auto with clip.
Qed.

Lemma delivered_nonneg : forall m, 0 <= delivered m.
Proof.
  intro m. unfold delivered. destruct (ImMat.empty m); [lia|].
  pose proof (wrap_u32_range (ImMat.w m)) as Hr. unfold is_uint32 in Hr. lia.
Qed.

Lemma delivered_new : delivered ImMat.new = 0.
Proof. reflexivity. Qed.

Lemma delivered_set_time_stamp : forall ts m,
  delivered (ImMat.set_time_stamp ts m) = delivered m.
Proof. reflexivity. Qed.

Lemma LeftSamples_nonneg : forall x : Clip, 0 <= AudioClip.LeftSamples x.
Proof.
  intro x. unfold AudioClip.LeftSamples.
  pose proof (wrap_u32_range
                (sub64 (AudioClip.m_totalSamples x) (AudioClip.m_readSamples x)))
    as H1.
  pose proof (wrap_u32_range (AudioClip.m_readSamples x)) as H2.
  unfold is_uint32 in *.
  repeat lazymatch goal with
         | |- context [if ?b then _ else _] => destruct b
         end; lia.
Qed.

Lemma LeftSamples_session_only : forall x x' : Clip,
  session_only x x' ->
  MediaReader.IsDirectionForward (AudioClip.m_srcReader x')
  = MediaReader.IsDirectionForward (AudioClip.m_srcReader x) ->
  AudioClip.LeftSamples x' = AudioClip.LeftSamples x.
Proof.
  intros x x' Hs Hd.
  destruct Hs as (_ & _ & _ & _ & _ & _ & _ & _ & Hr & Ht & _).
  unfold AudioClip.LeftSamples. rewrite Hd, Hr, Ht. reflexivity.
Qed.

Lemma stateUpdate_spec :
  forall (fwd : bool) (m : ImMat.t) (se e : bool) (x : Clip),
  let rs := if ImMat.empty m then AudioClip.m_readSamples x
            else add64 (AudioClip.m_readSamples x)
                       (if fwd then delivered m else neg64 (delivered m)) in
  let x1 := AudioClip.set_readSamples rs x in
  let atEnd := (AudioClip.LeftSamples x1 =? 0) || se in
  AudioClip.stateUpdate fwd m se e x
  = (delivered m, atEnd || e,
     AudioClip.set_eof (atEnd || AudioClip.m_eof x) x1).
Proof.
  intros fwd m se e x. unfold AudioClip.stateUpdate, delivered.
  destruct x as [i t r f sd st so eo pd pf rsx ts ef ins]. cbn.
  destruct (ImMat.empty m); cbn.
  - destruct (_ || se); reflexivity.
  - destruct (_ || se); reflexivity.
Qed.

(** *** The session's contract seen from the clip *)

Section WithContract.
Context {HC : MediaReader.Contract R}.

Lemma prepareRead_direction : forall p x,
  MediaReader.IsDirectionForward
    (AudioClip.m_srcReader (AudioClip.prepareRead p x))
  = MediaReader.IsDirectionForward (AudioClip.m_srcReader x).
Proof.
  intros p x. unfold AudioClip.prepareRead.
  destruct (AudioClip.m_pcmFrameSize x =? 0); cbn;
    destruct (AudioClip.m_initSeek x); cbn; try reflexivity;
    destruct (p >? 1000); cbn; try reflexivity;
    apply MediaReader.SeekTo_direction.
Qed.

Lemma compensate_direction : forall rate ch n p x sf x' m se,
  AudioClip.compensate rate ch n p x = (sf, x', m, se) ->
  MediaReader.IsDirectionForward (AudioClip.m_srcReader x')
  = MediaReader.IsDirectionForward (AudioClip.m_srcReader x).
Proof.
  intros rate ch n p x sf x' m se. unfold AudioClip.compensate.
  cbv zeta.
  repeat lazymatch goal with
         | |- (if ?b then _ else _) = _ -> _ => destruct b
         end;
    intro E; inversion E; subst; cbn; try reflexivity.
  apply MediaReader.Read_direction.
Qed.

Lemma compensate_delivered : forall rate ch n p x sf x' m se,
  0 <= n ->
  AudioClip.compensate rate ch n p x = (sf, x', m, se) ->
  delivered m <= n.
Proof.
  intros rate ch n p x sf x' m se Hn. unfold AudioClip.compensate.
  cbv zeta.
  match goal with
  | |- (if ?b then _ else _) = _ -> _ => destruct b eqn:Hpos
  end.
  - match goal with
    | |- (if ?b then _ else _) = _ -> _ => destruct b
    end; intro E; inversion E; subst; rewrite ?delivered_new; try lia.
    rewrite delivered_set_time_stamp. unfold delivered.
    destruct (ImMat.empty _); [lia|]. cbn [ImMat.w ImMat.create].
    rewrite wrap_u32_wrap_i32.
    apply Z.gtb_lt in Hpos.
    match goal with
    | |- wrap_u32 (if ?d >? n then n else ?d) <= n =>
        destruct (Z.gtb_spec d n);
          [apply wrap_u32_le; lia
          | etransitivity; [apply wrap_u32_le; lia | lia]]
    end.
  - intro E; inversion E; subst. rewrite delivered_new. lia.
Qed.

Lemma readFromSource_direction : forall n p m0 se0 x rf x' m se,
  AudioClip.readFromSource n p m0 se0 x = (rf, x', m, se) ->
  MediaReader.IsDirectionForward (AudioClip.m_srcReader x')
  = MediaReader.IsDirectionForward (AudioClip.m_srcReader x).
Proof.
  intros n p m0 se0 x rf x' m se. unfold AudioClip.readFromSource.
  lazymatch goal with
  | |- (if ?b then _ else _) = _ -> _ => destruct b
  end; intro E; inversion E; subst; cbn; try reflexivity.
  apply MediaReader.Read_direction.
Qed.

Lemma readFromSource_delivered : forall n p m0 se0 x rf x' m se,
  0 <= n ->
  delivered m0 <= n ->
  AudioClip.readFromSource n p m0 se0 x = (rf, x', m, se) ->
  delivered m <= n.
Proof.
  intros n p m0 se0 x rf x' m se Hn Hm0. unfold AudioClip.readFromSource.
  lazymatch goal with
  | |- (if ?b then _ else _) = _ -> _ => destruct b
  end; intro E; inversion E; subst; [|exact Hm0].
  rewrite delivered_set_time_stamp. unfold delivered.
  destruct (ImMat.empty _) eqn:He; [lia|].
  pose proof (MediaReader.Read_bounded n se0 (AudioClip.m_srcReader x) Hn He)
    as Hb.
  etransitivity; [apply wrap_u32_le; lia | lia].
Qed.

End WithContract.

(** *** ReadAudioSamples, case by case *)

Lemma ReadAudioSamples_inv : forall (n : Z) (e : bool) (x : Clip),
  let left := AudioClip.LeftSamples x in
  let k := if n >? left then left else n in
  let dir (y : Clip) :=
    MediaReader.IsDirectionForward (AudioClip.m_srcReader y) in
  (AudioClip.m_eof x || (left =? 0) = true
   /\ AudioClip.ReadAudioSamples n e x
      = (Ok (AudioClip.mkRead ImMat.new 0 true false),
         AudioClip.set_eof true x))
  \/ (AudioClip.m_eof x || (left =? 0) = false
      /\ exists x3,
           session_only x x3
           /\ AudioClip.ReadAudioSamples n e x = (Throw runtime_error, x3))
  \/ (AudioClip.m_eof x || (left =? 0) = false
      /\ exists x3 m se fwd,
           session_only x x3
           /\ (MediaReader.Contract R ->
               fwd = dir x /\ dir x3 = dir x
               /\ (0 <= n -> delivered m <= k))
           /\ AudioClip.ReadAudioSamples n e x
              = (let '(rs, e', x4) := AudioClip.stateUpdate fwd m se e x3 in
                 (Ok (AudioClip.mkRead (AudioClip.applyFilter rs m x4)
                                       rs e' se), x4))).
Proof.
  intros n e x left k dir. unfold AudioClip.ReadAudioSamples.
  fold left. destruct (AudioClip.m_eof x || (left =? 0)) eqn:Hearly.
  { left. split; reflexivity. }
  right. cbv zeta. fold k.
  set (rate := MediaReader.GetAudioOutSampleRate (AudioClip.m_srcReader x)).
  set (ch := wrap_i32 _).
  set (p := AudioClip.expectedReadPosOf rate x).
  set (x1 := AudioClip.prepareRead p x).
  assert (H1 : session_only x x1) by apply prepareRead_session_only.
  destruct (AudioClip.compensate rate ch k p x1) as [[[sf x2] m1] se1] eqn:Ec.
  pose proof (compensate_session_only _ _ _ _ _ _ _ _ _ Ec) as H2.
  destruct sf.
  { left. split; [reflexivity|]. exists x2. split; [|reflexivity].
    eapply session_only_trans; eassumption. }
  destruct (AudioClip.readFromSource k p m1 se1 x2)
    as [[[rf x3] m2] se2] eqn:Er.
  pose proof (readFromSource_session_only _ _ _ _ _ _ _ _ _ Er) as H3.
  assert (H13 : session_only x x3)
    by (eapply session_only_trans; [eassumption|];
        eapply session_only_trans; eassumption).
  destruct rf.
  { left. split; [reflexivity|]. exists x3. split; [assumption|reflexivity]. }
  right. split; [reflexivity|].
  exists x3, m2, se2, (dir x1). split; [assumption|]. split; [|reflexivity].
  intro HC.
  assert (Hd1 : dir x1 = dir x) by apply prepareRead_direction.
  assert (Hd2 : dir x2 = dir x1) by (eapply compensate_direction; eassumption).
  assert (Hd3 : dir x3 = dir x2)
    by (eapply readFromSource_direction; eassumption).
  split; [assumption|]. split; [congruence|].
  intro Hn.
  assert (Hk : 0 <= k).
  { subst k. pose proof (LeftSamples_nonneg x). fold left in H.
    destruct (n >? left); lia. }
  eapply readFromSource_delivered; [exact Hk| |exact Er].
  eapply compensate_delivered; [exact Hk|exact Ec].
Qed.

Lemma ReadAudioSamples_frame : forall n e (x : Clip),
  read_frame x (snd (AudioClip.ReadAudioSamples n e x)).
Proof.
  intros n e x.
  assert (Hs : forall y, session_only x y -> read_frame x y).
  { intros y Hy. unfold session_only in Hy. unfold read_frame. tauto. }
  destruct (ReadAudioSamples_inv n e x)
    as [[_ E] | [[_ (x3 & H3 & E)] | [_ (x3 & m & se & fwd & H3 & _ & E)]]];
    rewrite E.
  - unfold read_frame. cbn. repeat split; reflexivity.
  - cbn. auto.
  - rewrite stateUpdate_spec. cbn [snd].
    specialize (Hs _ H3). unfold read_frame in *. cbn. exact Hs.
Qed.

Lemma exec_same_source : forall k (x : Clip),
  same_source x (AudioClip.exec k x).
Proof.
  intros k x. unfold same_source.
  destruct k as [v|v|v|v|v|n e|b|f]; cbn [AudioClip.exec].
  - split; reflexivity.
  - split; reflexivity.
  - unfold AudioClip.ChangeStartOffset.
    repeat lazymatch goal with
           | |- context [if ?b then _ else _] => destruct b
           end; split; reflexivity.
  - unfold AudioClip.ChangeEndOffset.
    repeat lazymatch goal with
           | |- context [if ?b then _ else _] => destruct b
           end; split; reflexivity.
  - unfold AudioClip.SeekTo.
    repeat lazymatch goal with
           | |- context [if ?b then _ else _] => destruct b
           | |- context [let (_, _) := ?p in _] => destruct p
           end; split; reflexivity.
  - pose proof (ReadAudioSamples_frame n e x) as Hf.
    unfold read_frame in Hf. tauto.
  - split; reflexivity.
  - split; reflexivity.
Qed.

Lemma Reachable_same_source : forall x0 x : Clip,
  AudioClip.Reachable x0 x -> same_source x0 x.
Proof.
  intros x0 x Hr. induction Hr as [|x k Hr IH].
  - split; reflexivity.
  - destruct IH as [IH1 IH2].
    destruct (exec_same_source k x) as [E1 E2].
    split; congruence.
Qed.

(** *** Construction and the timeline span *)

Lemma padding_wrap : forall a b so eo sd : Z,
  sub64 (add64 (add64 (sub64 b a) so) eo) sd
  = wrap64 (b - a + so + eo - sd).
Proof.
  intros a b so eo sd. unfold sub64, add64. wrap64_ring.
Qed.

Lemma Duration_of_padding : forall (x : Clip) a b,
  AudioClip.m_padding x
  = wrap64 (b - a + AudioClip.m_startOffset x + AudioClip.m_endOffset x
            - AudioClip.m_srcDuration x) ->
  AudioClip.Duration x = wrap64 (b - a).
Proof.
  intros x a b Hp. rewrite Duration_wrap, Hp. wrap64_ring.
Qed.

(** C1. For every clip constructed with valid parameters (the source has an
    audio stream and its session opens, configures and starts; startOffset
    >= 0, endOffset >= 0, end > start, the span end - start being an int64
    value), construction succeeds, Duration() equals end - start right after
    it, and at every state reachable from there by calls of the clip's
    methods m_srcDuration and m_padding still hold the values the
    constructor computed, padding being (end-start) + startOffset + endOffset
    - sourceDuration, and Duration() equals sourceDuration + padding -
    startOffset - endOffset in int64 arithmetic (hence exactly, whenever
    that value is an int64 value). *)
Theorem C1_duration_is_timeline_span :
  forall (id : Z) (hParser : MediaReader.Parser) (ch rate : Z) (fmt : string)
         (start end_ so eo : Z) (r1 r2 r3 : R),
    0 <= MediaReader.GetBestAudioStreamIndex hParser ->
    MediaReader.Open hParser MediaReader.CreateInstance = (true, r1) ->
    MediaReader.ConfigAudioReader ch rate fmt r1 = (true, r2) ->
    MediaReader.Start r2 = (true, r3) ->
    0 <= so -> 0 <= eo -> start < end_ ->
    is_int64 (end_ - start) ->
    exists x0 : Clip,
      AudioClip.AudioClip_AudioImpl id hParser ch rate fmt start end_ so eo
      = Ok x0
      /\ AudioClip.Duration x0 = end_ - start
      /\ AudioClip.m_padding x0
         = wrap64 (end_ - start + so + eo - AudioClip.m_srcDuration x0)
      /\ forall x : Clip,
           AudioClip.Reachable x0 x ->
           AudioClip.m_srcDuration x = AudioClip.m_srcDuration x0
           /\ AudioClip.m_padding x = AudioClip.m_padding x0
           /\ AudioClip.Duration x
              = wrap64 (AudioClip.m_srcDuration x0 + AudioClip.m_padding x0
                        - AudioClip.m_startOffset x - AudioClip.m_endOffset x)
           /\ (is_int64 (AudioClip.m_srcDuration x0 + AudioClip.m_padding x0
                         - AudioClip.m_startOffset x
                         - AudioClip.m_endOffset x) ->
               AudioClip.Duration x
               = AudioClip.m_srcDuration x0 + AudioClip.m_padding x0
                 - AudioClip.m_startOffset x - AudioClip.m_endOffset x).
Proof.
  intros id hParser ch rate fmt start end_ so eo r1 r2 r3
         Hidx Hopen Hconf Hstart Hso Heo Hse Hspan.
  unfold AudioClip.AudioClip_AudioImpl.
  replace (MediaReader.GetBestAudioStreamIndex hParser <? 0) with false
    by (symmetry; apply Z.ltb_ge; lia).
  rewrite Hopen. cbn [negb]. rewrite Hconf. cbn [negb].
  replace (so <? 0) with false by (symmetry; apply Z.ltb_ge; lia).
  replace (eo <? 0) with false by (symmetry; apply Z.ltb_ge; lia).
  replace (end_ <=? start) with false by (symmetry; apply Z.leb_gt; lia).
  cbv zeta. rewrite Hstart. cbn [negb].
  eexists. split; [reflexivity|].
  match goal with
  | |- AudioClip.Duration ?x0 = _ /\ _ => set (c0 := x0)
  end.
  assert (Hpad : AudioClip.m_padding c0
                 = wrap64 (end_ - start + AudioClip.m_startOffset c0
                           + AudioClip.m_endOffset c0
                           - AudioClip.m_srcDuration c0))
    by (subst c0; cbn; apply padding_wrap).
  split.
  { rewrite (Duration_of_padding c0 start end_ Hpad).
    apply wrap64_id. exact Hspan. }
  split.
  { exact Hpad. }
  intros x Hreach.
  destruct (Reachable_same_source _ _ Hreach) as [Hsd Hpd].
  split; [exact Hsd|]. split; [exact Hpd|].
  assert (Hd : AudioClip.Duration x
               = wrap64 (AudioClip.m_srcDuration c0 + AudioClip.m_padding c0
                         - AudioClip.m_startOffset x
                         - AudioClip.m_endOffset x))
    by (rewrite Duration_wrap, Hsd, Hpd; reflexivity).
  split; [exact Hd|].
  intro Hin. rewrite Hd. apply wrap64_id. exact Hin.
Qed.

(** *** Seeking *)

Lemma targetReadSamples_exact : forall (x : Clip) pos,
  0 <= pos -> 0 <= AudioClip.OutSampleRate x ->
  is_int64 (pos * AudioClip.OutSampleRate x) ->
  targetReadSamples x pos = pos * AudioClip.OutSampleRate x / 1000.
Proof.
  intros x pos Hpos Hrate Hin. unfold targetReadSamples, div64, mul64.
  rewrite (wrap64_id _ Hin).
  set (a := pos * AudioClip.OutSampleRate x) in *.
  assert (Ha : 0 <= a) by (subst a; apply Z.mul_nonneg_nonneg; assumption).
  rewrite Z.quot_div_nonneg by lia.
  apply wrap64_id. unfold is_int64, int64_min, int64_max in *.
  pose proof (Z.div_pos a 1000 Ha ltac:(lia)).
  pose proof (Z.div_le_upper_bound a 1000 a ltac:(lia) ltac:(lia)).
  lia.
Qed.

(** C4. For every clip and every pos with pos < 0 or pos > Duration(),
    Clip.SeekTo(pos) raises no error and returns with the clip, every member
    and the source session included, exactly as it was. *)
Theorem C4_SeekTo_out_of_range_is_noop : forall (x : Clip) (pos : Z),
  pos < 0 \/ pos > AudioClip.Duration x ->
  AudioClip.SeekTo pos x = (Ok tt, x).
Proof.
  intros x pos Hout. unfold AudioClip.SeekTo.
  replace ((pos <? 0) || (pos >? AudioClip.Duration x)) with true;
    [reflexivity|].
  symmetry. apply orb_true_iff.
  destruct Hout as [Hneg | Hbig].
  - left. apply Z.ltb_lt. exact Hneg.
  - right. apply Z.gtb_lt. lia.
Qed.

Lemma SeekTo_same_target : forall (x : Clip) (pos : Z),
  0 <= pos <= AudioClip.Duration x ->
  targetReadSamples x pos = AudioClip.m_readSamples x ->
  AudioClip.SeekTo pos x = (Ok tt, x).
Proof.
  intros x pos Hin Htarget. unfold AudioClip.SeekTo.
  replace ((pos <? 0) || (pos >? AudioClip.Duration x)) with false.
  - cbv zeta. fold (targetReadSamples x pos). rewrite Htarget.
    rewrite Z.eqb_refl. reflexivity.
  - symmetry. apply orb_false_iff. split.
    + apply Z.ltb_ge. lia.
    + rewrite Z.gtb_ltb. apply Z.ltb_ge. lia.
Qed.

(** C9. For every clip and every in-range pos in [0, Duration()] whose
    sample-domain equivalent pos * outputSampleRate / 1000 equals the current
    readSamples counter, Clip.SeekTo(pos) returns early with the clip exactly
    as it was: no seek reaches the source session and the eof flag is not
    cleared, so a clip that has reached eof stays at eof. *)
Theorem C9_SeekTo_same_target_returns_early : forall (x : Clip) (pos : Z),
  0 <= pos <= AudioClip.Duration x ->
  targetReadSamples x pos = AudioClip.m_readSamples x ->
  AudioClip.SeekTo pos x = (Ok tt, x)
  /\ AudioClip.m_srcReader (snd (AudioClip.SeekTo pos x))
     = AudioClip.m_srcReader x
  /\ AudioClip.m_eof (snd (AudioClip.SeekTo pos x)) = AudioClip.m_eof x
  /\ (AudioClip.m_eof x = true ->
      AudioClip.m_eof (snd (AudioClip.SeekTo pos x)) = true).
Proof.
  intros x pos Hin Htarget.
  rewrite (SeekTo_same_target x pos Hin Htarget). cbn [snd].
  repeat split; auto.
Qed.

Lemma SeekTo_in_range : forall (x : Clip) (pos : Z),
  0 <= pos <= AudioClip.Duration x ->
  targetReadSamples x pos <> AudioClip.m_readSamples x ->
  let seekPos :=
    if add64 pos (AudioClip.m_startOffset x) >? AudioClip.m_srcDuration x
    then AudioClip.m_srcDuration x
    else add64 pos (AudioClip.m_startOffset x) in
  let sought := MediaReader.SeekTo seekPos (AudioClip.m_srcReader x) in
  AudioClip.SeekTo pos x
  = if fst sought
    then (Ok tt,
          AudioClip.set_eof false
            (AudioClip.set_readSamples (targetReadSamples x pos)
               (AudioClip.set_srcReader (snd sought) x)))
    else (Throw runtime_error, AudioClip.set_srcReader (snd sought) x).
Proof.
  intros x pos Hin Htarget. cbv zeta. unfold AudioClip.SeekTo.
  replace ((pos <? 0) || (pos >? AudioClip.Duration x)) with false.
  - cbv zeta. fold (targetReadSamples x pos).
    apply Z.eqb_neq in Htarget. rewrite Htarget.
    destruct (MediaReader.SeekTo _ (AudioClip.m_srcReader x)) as [ok r1].
    cbn [fst snd]. destruct ok; reflexivity.
  - symmetry. apply orb_false_iff. split.
    + apply Z.ltb_ge. lia.
    + rewrite Z.gtb_ltb. apply Z.ltb_ge. lia.
Qed.

(** How far ReadPos() can be from start + pos once readSamples holds the
    sample-domain equivalent of pos: never ahead, and behind by less than
    one sample period plus one millisecond. *)
Lemma ReadPos_of_target : forall (x : Clip) (pos : Z),
  let rate := AudioClip.OutSampleRate x in
  0 <= pos -> 0 < rate ->
  is_int64 (pos * rate) ->
  is_int64 (AudioClip.m_start x) ->
  is_int64 (AudioClip.m_start x + pos) ->
  AudioClip.m_readSamples x = pos * rate / 1000 ->
  AudioClip.ReadPos x <= AudioClip.m_start x + pos
  /\ (AudioClip.m_start x + pos - AudioClip.ReadPos x) * rate < 1000 + rate.
Proof.
  intros x pos rate Hpos Hrate Hin Hst Hsp Hrs.
  unfold AudioClip.ReadPos, add64, div64, mul64. fold rate. rewrite Hrs.
  set (q := pos * rate / 1000).
  assert (Hq : 0 <= q /\ q * 1000 <= pos * rate < q * 1000 + 1000).
  { subst q. pose proof (Z.div_mod (pos * rate) 1000 ltac:(lia)).
    pose proof (Z.mod_pos_bound (pos * rate) 1000 ltac:(lia)).
    pose proof (Z.div_pos (pos * rate) 1000 ltac:(nia) ltac:(lia)). lia. }
  unfold is_int64, int64_min, int64_max in *.
  rewrite (wrap64_id (q * 1000))
    by (unfold is_int64, int64_min, int64_max; lia).
  rewrite Z.quot_div_nonneg by lia.
  set (p' := q * 1000 / rate).
  assert (Hp : 0 <= p' /\ p' * rate <= q * 1000 < p' * rate + rate).
  { subst p'. pose proof (Z.div_mod (q * 1000) rate ltac:(lia)).
    pose proof (Z.mod_pos_bound (q * 1000) rate ltac:(lia)).
    pose proof (Z.div_pos (q * 1000) rate ltac:(lia) ltac:(lia)). nia. }
  assert (Hle : p' <= pos) by nia.
  rewrite (wrap64_id p')
    by (unfold is_int64, int64_min, int64_max; nia).
  rewrite wrap64_id
    by (unfold is_int64, int64_min, int64_max; lia).
  split; [lia|]. nia.
Qed.

(** C3, as the code has it. For every clip and every pos in [0, Duration()]
    (sample rate positive, pos * rate, pos + startOffset and start + pos
    int64 values):
    - when the sample-domain equivalent of pos differs from the current
      readSamples, Clip.SeekTo(pos) issues a source-session seek to
      pos + startOffset clamped to sourceDuration; if that seek fails the
      call throws a runtime error, otherwise it sets readSamples to
      pos * outputSampleRate / 1000 and clears the eof flag;
    - whenever the call returns normally, readSamples is
      pos * outputSampleRate / 1000 and ReadPos() is at most start + pos and
      below it by less than one output sample period plus one millisecond
      (the two integer divisions each truncate). *)
Theorem C3_SeekTo_in_range :
  forall (HC : MediaReader.Contract R) (x : Clip) (pos : Z),
    let rate := AudioClip.OutSampleRate x in
    0 <= pos <= AudioClip.Duration x ->
    0 < rate ->
    is_int64 (pos * rate) ->
    is_int64 (pos + AudioClip.m_startOffset x) ->
    is_int64 (AudioClip.m_start x) ->
    is_int64 (AudioClip.m_start x + pos) ->
    (targetReadSamples x pos <> AudioClip.m_readSamples x ->
     let sought :=
       MediaReader.SeekTo
         (Z.min (pos + AudioClip.m_startOffset x) (AudioClip.m_srcDuration x))
         (AudioClip.m_srcReader x) in
     AudioClip.SeekTo pos x
     = if fst sought
       then (Ok tt,
             AudioClip.set_eof false
               (AudioClip.set_readSamples (pos * rate / 1000)
                  (AudioClip.set_srcReader (snd sought) x)))
       else (Throw runtime_error, AudioClip.set_srcReader (snd sought) x))
    /\ (forall x' : Clip,
          AudioClip.SeekTo pos x = (Ok tt, x') ->
          AudioClip.m_readSamples x' = pos * rate / 1000
          /\ AudioClip.ReadPos x' <= AudioClip.m_start x + pos
          /\ (AudioClip.m_start x + pos - AudioClip.ReadPos x') * rate
             < 1000 + rate).
Proof.
  intros HC x pos rate Hin Hrate Hmul Hoff Hst Hsp.
  assert (Ht : targetReadSamples x pos = pos * rate / 1000)
    by (apply targetReadSamples_exact; fold rate; lia || assumption).
  assert (Hseek :
    (if add64 pos (AudioClip.m_startOffset x) >? AudioClip.m_srcDuration x
     then AudioClip.m_srcDuration x
     else add64 pos (AudioClip.m_startOffset x))
    = Z.min (pos + AudioClip.m_startOffset x) (AudioClip.m_srcDuration x)).
  { unfold add64. rewrite (wrap64_id _ Hoff).
    destruct (Z.gtb_spec (pos + AudioClip.m_startOffset x)
                         (AudioClip.m_srcDuration x)); lia. }
  assert (HA : targetReadSamples x pos <> AudioClip.m_readSamples x ->
     let sought :=
       MediaReader.SeekTo
         (Z.min (pos + AudioClip.m_startOffset x) (AudioClip.m_srcDuration x))
         (AudioClip.m_srcReader x) in
     AudioClip.SeekTo pos x
     = if fst sought
       then (Ok tt,
             AudioClip.set_eof false
               (AudioClip.set_readSamples (pos * rate / 1000)
                  (AudioClip.set_srcReader (snd sought) x)))
       else (Throw runtime_error, AudioClip.set_srcReader (snd sought) x)).
  { intro Hne. cbv zeta.
    rewrite (SeekTo_in_range x pos Hin Hne). cbv zeta.
    rewrite Hseek, Ht. reflexivity. }
  split; [exact HA|].
  intros x' E.
  assert (Hx' : AudioClip.m_readSamples x' = pos * rate / 1000
                /\ AudioClip.OutSampleRate x' = rate
                /\ AudioClip.m_start x' = AudioClip.m_start x).
  { destruct (Z.eq_dec (targetReadSamples x pos) (AudioClip.m_readSamples x))
      as [Heq | Hne].
    - rewrite (SeekTo_same_target x pos Hin Heq) in E. inversion E; subst x'.
      repeat split; try reflexivity. congruence.
    - specialize (HA Hne). cbv zeta in HA. rewrite HA in E.
      destruct (MediaReader.SeekTo _ (AudioClip.m_srcReader x))
        as [ok r1] eqn:Es.
      cbn [fst snd] in E. destruct ok; [|discriminate].
      inversion E; subst x'. cbn.
      repeat split; try reflexivity.
      unfold AudioClip.OutSampleRate. cbn.
      pose proof (MediaReader.SeekTo_rate
                    (Z.min (pos + AudioClip.m_startOffset x)
                           (AudioClip.m_srcDuration x))
                    (AudioClip.m_srcReader x)) as Hr.
      rewrite Es in Hr. exact Hr. }
  destruct Hx' as (Hrs & Hr' & Hs').
  split; [exact Hrs|].
  rewrite <- Hs', <- Hr'.
  apply ReadPos_of_target; rewrite ?Hr', ?Hs'; try assumption; lia.
Qed.

(** *** Changing the offsets *)

Lemma ChangeStartOffset_cases : forall (v : Z) (x : Clip),
  (v = AudioClip.m_startOffset x
   /\ AudioClip.ChangeStartOffset v x = (Ok tt, x))
  \/ (v <> AudioClip.m_startOffset x
      /\ (v < 0
          \/ add64 v (AudioClip.m_endOffset x) >= AudioClip.m_srcDuration x)
      /\ exists what,
           AudioClip.ChangeStartOffset v x
           = (Throw (invalid_argument what), x))
  \/ (v <> AudioClip.m_startOffset x
      /\ 0 <= v
      /\ add64 v (AudioClip.m_endOffset x) < AudioClip.m_srcDuration x
      /\ let x1 := AudioClip.set_startOffset v x in
         let newTotalSamples :=
           div64 (mul64 (AudioClip.Duration x1) (AudioClip.OutSampleRate x))
                 1000 in
         AudioClip.ChangeStartOffset v x
         = (Ok tt,
            AudioClip.set_totalSamples newTotalSamples
              (AudioClip.set_readSamples
                 (add64 (AudioClip.m_readSamples x)
                        (sub64 newTotalSamples (AudioClip.m_totalSamples x)))
                 x1))).
Proof.
  intros v x. unfold AudioClip.ChangeStartOffset.
  destruct (Z.eqb_spec v (AudioClip.m_startOffset x)) as [Heq | Hne].
  { left. split; [assumption|reflexivity]. }
  right.
  destruct (Z.ltb_spec v 0) as [Hneg | Hnn].
  { left. split; [assumption|]. split; [left; assumption|].
    eexists. reflexivity. }
  rewrite Z.geb_leb.
  destruct (Z.leb_spec (AudioClip.m_srcDuration x)
                       (add64 v (AudioClip.m_endOffset x))) as [Hbig | Hok].
  { left. split; [assumption|]. split; [right; lia|].
    eexists. reflexivity. }
  right. split; [assumption|]. split; [assumption|]. split; [assumption|].
  reflexivity.
Qed.

Lemma ChangeEndOffset_cases : forall (v : Z) (x : Clip),
  (v = AudioClip.m_endOffset x
   /\ AudioClip.ChangeEndOffset v x = (Ok tt, x))
  \/ (v <> AudioClip.m_endOffset x
      /\ (v < 0
          \/ add64 (AudioClip.m_startOffset x) v >= AudioClip.m_srcDuration x)
      /\ exists what,
           AudioClip.ChangeEndOffset v x
           = (Throw (invalid_argument what), x))
  \/ (v <> AudioClip.m_endOffset x
      /\ 0 <= v
      /\ add64 (AudioClip.m_startOffset x) v < AudioClip.m_srcDuration x
      /\ let x1 := AudioClip.set_endOffset v x in
         AudioClip.ChangeEndOffset v x
         = (Ok tt,
            AudioClip.set_totalSamples
              (div64 (mul64 (AudioClip.Duration x1) (AudioClip.OutSampleRate x))
                     1000)
              x1)).
Proof.
  intros v x. unfold AudioClip.ChangeEndOffset.
  destruct (Z.eqb_spec v (AudioClip.m_endOffset x)) as [Heq | Hne].
  { left. split; [assumption|reflexivity]. }
  right.
  destruct (Z.ltb_spec v 0) as [Hneg | Hnn].
  { left. split; [assumption|]. split; [left; assumption|].
    eexists. reflexivity. }
  rewrite Z.geb_leb.
  destruct (Z.leb_spec (AudioClip.m_srcDuration x)
                       (add64 (AudioClip.m_startOffset x) v)) as [Hbig | Hok].
  { left. split; [assumption|]. split; [right; lia|].
    eexists. reflexivity. }
  right. split; [assumption|]. split; [assumption|]. split; [assumption|].
  reflexivity.
Qed.

Lemma AudioClip_AudioImpl_offsets :
  forall id hParser ch rate fmt start end_ so eo (x0 : Clip),
    AudioClip.AudioClip_AudioImpl id hParser ch rate fmt start end_ so eo
    = Ok x0 ->
    AudioClip.m_startOffset x0 = so /\ AudioClip.m_endOffset x0 = eo
    /\ 0 <= so /\ 0 <= eo /\ start < end_.
Proof.
  intros id hParser ch rate fmt start end_ so eo x0.
  unfold AudioClip.AudioClip_AudioImpl.
  destruct (MediaReader.GetBestAudioStreamIndex hParser <? 0);
    [discriminate|].
  destruct (MediaReader.Open hParser MediaReader.CreateInstance) as [o r1].
  destruct o; cbn [negb]; [|discriminate].
  destruct (MediaReader.ConfigAudioReader ch rate fmt r1) as [c r2].
  destruct c; cbn [negb]; [|discriminate].
  destruct (Z.ltb_spec so 0); [discriminate|].
  destruct (Z.ltb_spec eo 0); [discriminate|].
  destruct (Z.leb_spec end_ start); [discriminate|].
  cbv zeta. destruct (MediaReader.Start r2) as [st r3].
  destruct st; cbn [negb]; [|discriminate].
  intro E. inversion E. cbn. repeat split; assumption.
Qed.

(** C5, as the code has it. For every clip and every valid new start offset
    v (v >= 0 and v + endOffset < sourceDuration), ChangeStartOffset(v)
    succeeds and leaves startOffset = v; the start, the end offset, the
    source session and the eof flag are untouched.  When v is not the offset
    the clip already had, totalSamples becomes Duration() * outSampleRate /
    1000 for the new Duration(), and readSamples becomes readSamples + (new
    totalSamples - old totalSamples) (line 175, int64 arithmetic).  So
    (readSamples + the change of totalSamples being an int64 value)
    readSamples and totalSamples have moved by the same amount, and:
    - while the session reads forward, LeftSamples() does not change;
    - while it reads backward, with readSamples within [0, totalSamples]
      before the call, not negative after it, and both totals within
      uint32, LeftSamples() changes by exactly the difference between the
      new and the old totalSamples. *)
Theorem C5_ChangeStartOffset_LeftSamples : forall (x : Clip) (v : Z),
  0 <= v ->
  v + AudioClip.m_endOffset x < AudioClip.m_srcDuration x ->
  is_int64 (v + AudioClip.m_endOffset x) ->
  exists x' : Clip,
    AudioClip.ChangeStartOffset v x = (Ok tt, x')
    /\ AudioClip.StartOffset x' = v
    /\ (AudioClip.Start x' = AudioClip.Start x
        /\ AudioClip.EndOffset x' = AudioClip.EndOffset x
        /\ AudioClip.m_srcReader x' = AudioClip.m_srcReader x
        /\ AudioClip.m_eof x' = AudioClip.m_eof x)
    /\ (v <> AudioClip.StartOffset x ->
        AudioClip.m_totalSamples x'
        = div64 (mul64 (AudioClip.Duration x') (AudioClip.OutSampleRate x'))
                1000
        /\ AudioClip.m_readSamples x'
           = add64 (AudioClip.m_readSamples x)
                   (sub64 (AudioClip.m_totalSamples x')
                          (AudioClip.m_totalSamples x)))
    /\ let delta := AudioClip.m_totalSamples x' - AudioClip.m_totalSamples x in
       (is_int64 (AudioClip.m_readSamples x + delta) ->
        AudioClip.m_readSamples x' = AudioClip.m_readSamples x + delta
        /\ (MediaReader.IsDirectionForward (AudioClip.m_srcReader x) = true ->
            AudioClip.LeftSamples x' = AudioClip.LeftSamples x)
        /\ (MediaReader.IsDirectionForward (AudioClip.m_srcReader x) = false ->
            0 <= AudioClip.m_readSamples x <= AudioClip.m_totalSamples x ->
            0 <= AudioClip.m_readSamples x + delta ->
            AudioClip.m_totalSamples x <= uint32_max ->
            AudioClip.m_totalSamples x' <= uint32_max ->
            AudioClip.LeftSamples x' - AudioClip.LeftSamples x = delta)).
Proof.
  intros x v Hv Hsum Hin.
  destruct (ChangeStartOffset_cases v x)
    as [[Heq E] | [(Hne & Hbad & _) | (Hne & _ & _ & E)]].
  - exists x. split; [exact E|].
    split; [symmetry; exact Heq|].
    split; [repeat split|].
    split; [intro Hne; exfalso; apply Hne; exact Heq|].
    cbv zeta. intros _. split; [lia|]. split.
    + reflexivity.
    + intros. lia.
  - exfalso. unfold add64 in Hbad. rewrite (wrap64_id _ Hin) in Hbad. lia.
  - cbv zeta in E. eexists. split; [exact E|].
    split; [reflexivity|].
    split; [repeat split|].
    split; [intros _; split; reflexivity|].
    set (T' := div64 _ 1000) in *. cbn [AudioClip.m_totalSamples
      AudioClip.set_totalSamples AudioClip.set_readSamples
      AudioClip.set_startOffset].
    cbv zeta. set (delta := T' - AudioClip.m_totalSamples x).
    intro Hd.
    assert (Hr : add64 (AudioClip.m_readSamples x)
                       (sub64 T' (AudioClip.m_totalSamples x))
                 = AudioClip.m_readSamples x + delta).
    { rewrite <- (wrap64_id _ Hd). unfold add64, sub64. subst delta.
      wrap64_ring. }
    split; [cbn; exact Hr|].
    unfold AudioClip.LeftSamples. cbn. rewrite Hr. split.
    + intro Hf. rewrite Hf.
      replace (T' >? AudioClip.m_readSamples x + delta)
        with (AudioClip.m_totalSamples x >? AudioClip.m_readSamples x)
        by (subst delta; rewrite !Z.gtb_ltb;
            destruct (Z.ltb_spec (AudioClip.m_readSamples x)
                                 (AudioClip.m_totalSamples x));
            symmetry; [apply Z.ltb_lt | apply Z.ltb_ge]; lia).
      destruct (_ >? _); [|reflexivity].
      unfold sub64. rewrite !wrap_u32_wrap64. f_equal. subst delta. lia.
    + intros Hf Hrange Hnn Ht Ht'. rewrite Hf.
      replace (AudioClip.m_readSamples x + delta >? T') with false
        by (symmetry; rewrite Z.gtb_ltb; apply Z.ltb_ge; subst delta; lia).
      replace (AudioClip.m_readSamples x >? AudioClip.m_totalSamples x)
        with false by (symmetry; rewrite Z.gtb_ltb; apply Z.ltb_ge; lia).
      replace (AudioClip.m_readSamples x + delta >=? 0) with true
        by (symmetry; rewrite Z.geb_leb; apply Z.leb_le; lia).
      replace (AudioClip.m_readSamples x >=? 0) with true
        by (symmetry; rewrite Z.geb_leb; apply Z.leb_le; lia).
      rewrite !wrap_u32_id; unfold is_uint32, uint32_max in *;
        subst delta; lia.
Qed.

(** C6, as the code has it. The constructor checks each offset against 0
    only, so after construction startOffset >= 0 and endOffset >= 0 hold and
    nothing relates them to sourceDuration.  For every clip and every value
    v (v + the other offset being an int64 value), ChangeStartOffset(v) and
    ChangeEndOffset(v):
    - return at once when v is the current value of the offset;
    - otherwise reject with InvalidArgument, leaving the clip as it was,
      exactly when v < 0 or v + the other offset >= sourceDuration;
    - hence a successful call preserves startOffset + endOffset <
      sourceDuration, and a successful call that changes the offset
      establishes it. *)
Theorem C6_offsets_invariant : forall (x : Clip) (v : Z),
  is_int64 (v + AudioClip.m_endOffset x) ->
  is_int64 (AudioClip.m_startOffset x + v) ->
  (forall id hParser ch rate fmt start end_ so eo (x0 : Clip),
     AudioClip.AudioClip_AudioImpl id hParser ch rate fmt start end_ so eo
     = Ok x0 ->
     0 <= AudioClip.m_startOffset x0 /\ 0 <= AudioClip.m_endOffset x0)
  /\ (forall x' : Clip,
        AudioClip.ChangeStartOffset v x = (Ok tt, x') ->
        (offsets_invariant x -> offsets_invariant x')
        /\ (v <> AudioClip.m_startOffset x ->
            offsets_invariant x' /\ AudioClip.m_startOffset x' = v /\ 0 <= v))
  /\ (v <> AudioClip.m_startOffset x ->
      ((v < 0 \/ v + AudioClip.m_endOffset x >= AudioClip.m_srcDuration x)
       <-> exists what,
             AudioClip.ChangeStartOffset v x
             = (Throw (invalid_argument what), x))
      /\ ((0 <= v /\ v + AudioClip.m_endOffset x < AudioClip.m_srcDuration x)
          <-> exists x', AudioClip.ChangeStartOffset v x = (Ok tt, x')))
  /\ (forall x' : Clip,
        AudioClip.ChangeEndOffset v x = (Ok tt, x') ->
        (offsets_invariant x -> offsets_invariant x')
        /\ (v <> AudioClip.m_endOffset x ->
            offsets_invariant x' /\ AudioClip.m_endOffset x' = v /\ 0 <= v))
  /\ (v <> AudioClip.m_endOffset x ->
      ((v < 0 \/ AudioClip.m_startOffset x + v >= AudioClip.m_srcDuration x)
       <-> exists what,
             AudioClip.ChangeEndOffset v x
             = (Throw (invalid_argument what), x))
      /\ ((0 <= v /\ AudioClip.m_startOffset x + v < AudioClip.m_srcDuration x)
          <-> exists x', AudioClip.ChangeEndOffset v x = (Ok tt, x')))
  /\ (v = AudioClip.m_startOffset x ->
      AudioClip.ChangeStartOffset v x = (Ok tt, x))
  /\ (v = AudioClip.m_endOffset x ->
      AudioClip.ChangeEndOffset v x = (Ok tt, x)).
Proof.
  intros x v Hin1 Hin2.
  assert (Hsame :
    (v = AudioClip.m_startOffset x ->
     AudioClip.ChangeStartOffset v x = (Ok tt, x))
    /\ (v = AudioClip.m_endOffset x ->
        AudioClip.ChangeEndOffset v x = (Ok tt, x))).
  { split; intro Heq.
    - destruct (ChangeStartOffset_cases v x)
        as [[_ E] | [(Hne & _) | (Hne & _)]];
        [exact E | contradiction | contradiction].
    - destruct (ChangeEndOffset_cases v x)
        as [[_ E] | [(Hne & _) | (Hne & _)]];
        [exact E | contradiction | contradiction]. }
  split.
  { intros id hParser ch rate fmt start end_ so eo x0 E.
    destruct (AudioClip_AudioImpl_offsets _ _ _ _ _ _ _ _ _ _ E)
      as (-> & -> & ? & ? & _). split; assumption. }
  pose proof (ChangeStartOffset_cases v x) as Hs.
  pose proof (ChangeEndOffset_cases v x) as He.
  unfold add64 in Hs, He.
  rewrite (wrap64_id _ Hin1) in Hs. rewrite (wrap64_id _ Hin2) in He.
  unfold offsets_invariant.
  split; [|split; [|split; [|split; [|exact Hsame]]]].
  - intros x' E.
    destruct Hs as [[Heq E1] | [(Hne & _ & (w & E1)) | (Hne & Hv & Hlt & E1)]];
      rewrite E1 in E; inversion E; subst x'; clear E.
    + split; [tauto|]. intro; contradiction.
    + cbn. split; [intros _|intros _]; repeat split; lia.
  - intro Hne.
    destruct Hs as [[Heq E1] | [(_ & Hbad & (w & E1)) | (_ & Hv & Hlt & E1)]];
      [contradiction| |].
    + split; split.
      * intros _. exists w. exact E1.
      * intros _. exact Hbad.
      * intros [? ?]. lia.
      * intros [x' E]. rewrite E1 in E. discriminate.
    + cbv zeta in E1. split; split.
      * intros [? | ?]; lia.
      * intros [w E]. rewrite E1 in E. discriminate.
      * intros _. eexists. exact E1.
      * intros _. split; assumption.
  - intros x' E.
    destruct He as [[Heq E1] | [(Hne & _ & (w & E1)) | (Hne & Hv & Hlt & E1)]];
      rewrite E1 in E; inversion E; subst x'; clear E.
    + split; [tauto|]. intro; contradiction.
    + cbn. split; [intros _|intros _]; repeat split; lia.
  - intro Hne.
    destruct He as [[Heq E1] | [(_ & Hbad & (w & E1)) | (_ & Hv & Hlt & E1)]];
      [contradiction| |].
    + split; split.
      * intros _. exists w. exact E1.
      * intros _. exact Hbad.
      * intros [? ?]. lia.
      * intros [x' E]. rewrite E1 in E. discriminate.
    + cbv zeta in E1. split; split.
      * intros [? | ?]; lia.
      * intros [w E]. rewrite E1 in E. discriminate.
      * intros _. eexists. exact E1.
      * intros _. split; assumption.
Qed.

(** *** Reading to the end of the clip *)

Lemma LeftSamples_set_eof : forall b (x : Clip),
  AudioClip.LeftSamples (AudioClip.set_eof b x) = AudioClip.LeftSamples x.
Proof. reflexivity. Qed.

Lemma LeftSamples_leftOf : forall x : Clip,
  AudioClip.LeftSamples x
  = leftOf (MediaReader.IsDirectionForward (AudioClip.m_srcReader x))
           (AudioClip.m_totalSamples x) (AudioClip.m_readSamples x).
Proof. reflexivity. Qed.

Lemma wrap64_0 : wrap64 0 = 0.
Proof.
  apply wrap64_id. unfold is_int64, int64_min, int64_max. lia.
Qed.



Lemma ReadAudioSamples_count_le :
  forall (HC : MediaReader.Contract R) (x : Clip) (n : Z) (e : bool) res x',
    0 <= n ->
    AudioClip.ReadAudioSamples n e x = (Ok res, x') ->
    0 <= AudioClip.readSamples res
    /\ AudioClip.readSamples res <= n
    /\ AudioClip.readSamples res <= AudioClip.LeftSamples x.
Proof.
  intros HC x n e res x' Hn E.
  pose proof (LeftSamples_nonneg x) as Hleft.
  destruct (ReadAudioSamples_inv n e x)
    as [[_ E1] | [[_ (x3 & _ & E1)]
                 | [_ (x3 & m & se & fwd & _ & Hc & E1)]]];
    rewrite E1 in E; [| discriminate |].
  - inversion E; subst res x'. cbn. lia.
  - rewrite stateUpdate_spec in E. cbv zeta in E.
    inversion E; subst res x'; clear E. cbn [AudioClip.readSamples].
    destruct (Hc HC) as (_ & _ & Hdel). specialize (Hdel Hn).
    pose proof (delivered_nonneg m).
    destruct (Z.gtb_spec n (AudioClip.LeftSamples x)); lia.
Qed.





End ClipProperties.

(* ------------------------------------------------------------------------- *)
(** ** Overlaps *)

Section OverlapProperties.
Context {R : Type} {MR : MediaReader.Interface R}.

Local Abbreviation Clip := (AudioClip.t R).
Local Abbreviation Store := (AudioOverlap.Store (R := R)).

Lemma ranges_intersect_iff : forall a b : Clip,
  ranges_intersect a b
  <-> Z.max (AudioClip.Start a) (AudioClip.Start b)
      < Z.min (AudioClip.End a) (AudioClip.End b).
Proof.
  intros a b. unfold ranges_intersect. split.
  - intros [t Ht]. lia.
  - intro H. exists (Z.max (AudioClip.Start a) (AudioClip.Start b)). lia.
Qed.

(** HasOverlap, read as a proposition on the four end points. *)
Lemma HasOverlap_true_iff : forall (h1 h2 : AudioOverlap.Holder) (st : Store),
  AudioOverlap.HasOverlap h1 h2 st = true
  <-> (AudioClip.Start (st h2) <= AudioClip.Start (st h1)
       /\ AudioClip.Start (st h1) < AudioClip.End (st h2))
      \/ (AudioClip.Start (st h2) < AudioClip.End (st h1)
          /\ AudioClip.End (st h1) <= AudioClip.End (st h2))
      \/ (AudioClip.Start (st h1) < AudioClip.Start (st h2)
          /\ AudioClip.End (st h2) < AudioClip.End (st h1)).
Proof.
  intros h1 h2 st. unfold AudioOverlap.HasOverlap. cbv zeta.
  rewrite !orb_true_iff, !andb_true_iff.
  rewrite Z.geb_leb, !Z.gtb_ltb, !Z.leb_le, !Z.ltb_lt. tauto.
Qed.

(** C8. For every pair of clips a and b, each with end > start,
    HasOverlap(a, b) equals HasOverlap(b, a), and both hold exactly when
    either one's start falls within the other's [start,end), or either one's
    end falls within the other's (start,end], or one fully contains the
    other - which is to say, exactly when the two ranges share a point. *)
Theorem C8_HasOverlap_symmetric :
  forall (h1 h2 : AudioOverlap.Holder) (st : Store),
    AudioClip.Start (st h1) < AudioClip.End (st h1) ->
    AudioClip.Start (st h2) < AudioClip.End (st h2) ->
    AudioOverlap.HasOverlap h1 h2 st = AudioOverlap.HasOverlap h2 h1 st
    /\ (AudioOverlap.HasOverlap h1 h2 st = true
        <-> overlap_predicate (st h1) (st h2))
    /\ (AudioOverlap.HasOverlap h2 h1 st = true
        <-> overlap_predicate (st h1) (st h2))
    /\ (AudioOverlap.HasOverlap h1 h2 st = true
        <-> ranges_intersect (st h1) (st h2)).
Proof.
  intros h1 h2 st H1 H2.
  pose proof (HasOverlap_true_iff h1 h2 st) as H12.
  pose proof (HasOverlap_true_iff h2 h1 st) as H21.
  pose proof (ranges_intersect_iff (st h1) (st h2)) as Hi.
  unfold overlap_predicate. cbv zeta.
  set (s1 := AudioClip.Start (st h1)) in *.
  set (e1 := AudioClip.End (st h1)) in *.
  set (s2 := AudioClip.Start (st h2)) in *.
  set (e2 := AudioClip.End (st h2)) in *.
  assert (Hsym : AudioOverlap.HasOverlap h1 h2 st = true
                 <-> AudioOverlap.HasOverlap h2 h1 st = true)
    by (rewrite H12, H21; lia).
  split.
  { destruct (AudioOverlap.HasOverlap h1 h2 st),
             (AudioOverlap.HasOverlap h2 h1 st); try reflexivity.
    - symmetry. apply Hsym. reflexivity.
    - apply Hsym. reflexivity. }
  split; [rewrite H12; lia|]. split; [rewrite H21; lia|].
  rewrite H12, Hi. lia.
Qed.

Lemma Update_holders : forall (o : AudioOverlap.t) (st : Store),
  let o' := AudioOverlap.Update o st in
  (AudioOverlap.m_frontClip o' = AudioOverlap.m_frontClip o
   /\ AudioOverlap.m_rearClip o' = AudioOverlap.m_rearClip o)
  \/ (AudioOverlap.m_frontClip o' = AudioOverlap.m_rearClip o
      /\ AudioOverlap.m_rearClip o' = AudioOverlap.m_frontClip o).
Proof.
  intros o st. cbv zeta. unfold AudioOverlap.Update. cbv zeta.
  destruct (AudioClip.Start _ <=? AudioClip.Start _);
    match goal with
    | |- context [if ?b then _ else _] => destruct b
    end; cbn; tauto.
Qed.

(** C7, clause by clause, on the code. For every overlap over two clips,
    after Update():
    - the front clip's start is <= the rear clip's start, the two clips
      being the ones the overlap held before, possibly exchanged;
    - the window is (0,0) when the front clip's end is <= the rear clip's
      start, and otherwise start equals the rear clip's start and end equals
      the minimum of the two clips' ends; the latter is the case whenever
      the two timeline ranges intersect;
    - whenever the rear clip has end > start, the window satisfies start <=
      end, and it is (0,0) iff the two ranges do not intersect;
    - a rear clip with end < start that begins before the front clip ends
      gets a window with end < start.
    The constructor rejects end <= start, so the last case is met only by a
    clip whose offsets ChangeStartOffset or ChangeEndOffset have taken past
    its span: their check leaves the padding out (lines 171 and 185). *)
Theorem C7_Update_window : forall (o : AudioOverlap.t) (st : Store),
  let o' := AudioOverlap.Update o st in
  let front := st (AudioOverlap.m_frontClip o') in
  let rear := st (AudioOverlap.m_rearClip o') in
  AudioClip.Start front <= AudioClip.Start rear
  /\ ((AudioOverlap.m_frontClip o' = AudioOverlap.m_frontClip o
       /\ AudioOverlap.m_rearClip o' = AudioOverlap.m_rearClip o)
      \/ (AudioOverlap.m_frontClip o' = AudioOverlap.m_rearClip o
          /\ AudioOverlap.m_rearClip o' = AudioOverlap.m_frontClip o))
  /\ (AudioClip.End front <= AudioClip.Start rear ->
      AudioOverlap.m_start o' = 0 /\ AudioOverlap.m_end o' = 0)
  /\ (AudioClip.Start rear < AudioClip.End front ->
      AudioOverlap.m_start o' = AudioClip.Start rear
      /\ AudioOverlap.m_end o'
         = Z.min (AudioClip.End front) (AudioClip.End rear))
  /\ (ranges_intersect front rear ->
      AudioOverlap.m_start o' = AudioClip.Start rear
      /\ AudioOverlap.m_end o'
         = Z.min (AudioClip.End front) (AudioClip.End rear))
  /\ (AudioClip.Start rear < AudioClip.End rear ->
      AudioOverlap.m_start o' <= AudioOverlap.m_end o'
      /\ ((AudioOverlap.m_start o' = 0 /\ AudioOverlap.m_end o' = 0)
          <-> ~ ranges_intersect front rear))
  /\ (AudioClip.End rear < AudioClip.Start rear ->
      AudioClip.Start rear < AudioClip.End front ->
      AudioOverlap.m_end o' < AudioOverlap.m_start o').
Proof.
  intros o st o' front rear.
  pose proof (Update_holders o st) as Hh. cbv zeta in Hh. fold o' in Hh.
  pose proof (ranges_intersect_iff front rear) as Hi.
  subst front rear o'. revert Hh Hi.
  unfold AudioOverlap.Update. cbv zeta.
  set (h1 := AudioOverlap.m_frontClip o).
  set (h2 := AudioOverlap.m_rearClip o).
  destruct (Z.leb_spec (AudioClip.Start (st h1)) (AudioClip.Start (st h2)))
    as [Hord | Hord].
  - destruct (Z.leb_spec (AudioClip.End (st h1)) (AudioClip.Start (st h2)))
      as [Hno | Hyes]; cbn; intros Hh Hi.
    + rewrite Hi. repeat split; try tauto; try lia.
    + rewrite Hi.
      destruct (Z.leb_spec (AudioClip.End (st h1)) (AudioClip.End (st h2)));
        repeat split; try tauto; try lia.
  - destruct (Z.leb_spec (AudioClip.End (st h2)) (AudioClip.Start (st h1)))
      as [Hno | Hyes]; cbn; intros Hh Hi.
    + rewrite Hi. repeat split; try tauto; try lia.
    + rewrite Hi.
      destruct (Z.leb_spec (AudioClip.End (st h2)) (AudioClip.End (st h1)));
        repeat split; try tauto; try lia.
Qed.

Lemma clampedCount_eq : forall n o (st : Store),
  (let readSamples :=
     if AudioClip.LeftSamples (st (AudioOverlap.m_frontClip o)) <? n
     then AudioClip.LeftSamples (st (AudioOverlap.m_frontClip o)) else n in
   if AudioClip.LeftSamples (st (AudioOverlap.m_rearClip o)) <? readSamples
   then AudioClip.LeftSamples (st (AudioOverlap.m_rearClip o))
   else readSamples)
  = clampedCount n o st.
Proof.
  intros n o st. unfold clampedCount. cbv zeta.
  destruct (Z.ltb_spec (AudioClip.LeftSamples (st (AudioOverlap.m_frontClip o)))
                       n);
    match goal with
    | |- (if ?a <? ?b then _ else _) = _ => destruct (Z.ltb_spec a b)
    end; lia.
Qed.

Lemma call_ReadAudioSamples_count_le :
  forall (HC : MediaReader.Contract R) (h : AudioOverlap.Holder) (st : Store)
         (n : Z) (e : bool) res st',
    0 <= n ->
    AudioOverlap.call h (AudioClip.ReadAudioSamples n e) st = (Ok res, st') ->
    0 <= AudioClip.readSamples res <= n.
Proof.
  intros HC h st n e res st' Hn. unfold AudioOverlap.call.
  destruct (AudioClip.ReadAudioSamples n e (st h)) as [r x'] eqn:E.
  intro E'. inversion E'; subst r st'.
  pose proof (ReadAudioSamples_count_le HC _ _ _ _ _ Hn E). lia.
Qed.

(** C10. For every overlap, Overlap.ReadAudioSamples(n) first clamps n to
    what the two clips have left; when nothing is left it reports eof with
    no data and touches no clip.  Otherwise it reads the front clip with the
    clamped count and then asks the rear clip not for the clamped count but
    for the count the front clip delivered (the in-out parameter as the front
    clip's read left it); the reported count is the rear clip's delivered
    count, eof is set when either clip signalled it, and the buffer is the
    transition's mix of the two.  Consequently, over sessions that honour
    their contract, the reported count is at most the front clip's delivered
    count, which is at most the clamped count. *)
Theorem C10_Overlap_read_chains_counts :
  forall (o : AudioOverlap.t) (st : Store) (n : Z) (e : bool),
    let k := clampedCount n o st in
    (k = 0 ->
     AudioOverlap.ReadAudioSamples n e o st
     = (Ok (AudioOverlap.mkRead ImMat.new 0 true), st))
    /\ (k <> 0 ->
        forall res st',
          AudioOverlap.ReadAudioSamples n e o st = (Ok res, st') ->
          exists r1 r2 st1,
            AudioOverlap.call (AudioOverlap.m_frontClip o)
              (AudioClip.ReadAudioSamples k false) st = (Ok r1, st1)
            /\ AudioOverlap.call (AudioOverlap.m_rearClip o)
                 (AudioClip.ReadAudioSamples (AudioClip.readSamples r1) false)
                 st1 = (Ok r2, st')
            /\ AudioOverlap.readSamples res = AudioClip.readSamples r2
            /\ AudioOverlap.eof res
               = AudioClip.eof r1 || AudioClip.eof r2
            /\ AudioOverlap.amat res
               = MixTwoAudioMats (AudioOverlap.m_transition o)
                   (AudioClip.amat r1) (AudioClip.amat r2)
                   (Double.to_int64
                      (ImMat.time_stamp (AudioClip.amat r1)
                       * Double.of_int 1000)%float)
            /\ (MediaReader.Contract R -> 0 <= n ->
                AudioOverlap.readSamples res <= AudioClip.readSamples r1
                /\ AudioClip.readSamples r1 <= k /\ k <= n))
    /\ (k <> 0 ->
        forall r1 st1,
          AudioOverlap.call (AudioOverlap.m_frontClip o)
            (AudioClip.ReadAudioSamples k false) st = (Ok r1, st1) ->
          forall r2 st2,
            AudioOverlap.call (AudioOverlap.m_rearClip o)
              (AudioClip.ReadAudioSamples (AudioClip.readSamples r1) false)
              st1 = (Ok r2, st2) ->
            exists res,
              AudioOverlap.ReadAudioSamples n e o st = (Ok res, st2)
              /\ AudioOverlap.readSamples res = AudioClip.readSamples r2).
Proof.
  intros o st n e k.
  unfold AudioOverlap.ReadAudioSamples.
  pose proof (clampedCount_eq n o st) as Hk. cbv zeta in Hk. cbv zeta.
  rewrite Hk. fold k.
  split; [|split].
  - intro H0. rewrite H0. reflexivity.
  - intros Hnz res st' E.
    apply Z.eqb_neq in Hnz. rewrite Hnz in E.
    destruct (AudioOverlap.call (AudioOverlap.m_frontClip o)
                (AudioClip.ReadAudioSamples k false) st)
      as [[r1|ex] st1] eqn:E1; [|discriminate].
    destruct (AudioOverlap.call (AudioOverlap.m_rearClip o)
                (AudioClip.ReadAudioSamples (AudioClip.readSamples r1) false)
                st1)
      as [[r2|ex] st2] eqn:E2; [|discriminate].
    inversion E; subst res st'; clear E.
    exists r1, r2, st1. cbn.
    split; [reflexivity|]. split; [exact E2|]. split; [reflexivity|].
    split; [reflexivity|]. split; [reflexivity|].
    intros HC Hn.
    pose proof (LeftSamples_nonneg (st (AudioOverlap.m_frontClip o))).
    pose proof (LeftSamples_nonneg (st (AudioOverlap.m_rearClip o))).
    assert (Hk0 : 0 <= k /\ k <= n) by (subst k; unfold clampedCount; lia).
    pose proof (call_ReadAudioSamples_count_le HC _ _ _ _ _ _
                  (proj1 Hk0) E1) as H1.
    pose proof (call_ReadAudioSamples_count_le HC _ _ _ _ _ _
                  (proj1 H1) E2) as H2.
    lia.
  - intros Hnz r1 st1 E1 r2 st2 E2.
    apply Z.eqb_neq in Hnz. rewrite Hnz, E1, E2.
    eexists. split; reflexivity.
Qed.

End OverlapProperties.

(* ------------------------------------------------------------------------- *)
(** ** The simulated session honours the contract *)

#[local] Transparent wrap64 wrap_u32 wrap_i32.

Lemma Sim_read_bounded : forall n e r,
  0 <= n ->
  ImMat.empty (MediaReader.reply_mat (Sim.read n e r)) = false ->
  0 <= ImMat.w (MediaReader.reply_mat (Sim.read n e r)) <= n.
Proof.
  intros n e r Hn _. unfold Sim.read. cbn. lia.
Qed.

#[global] Instance Sim_contract : MediaReader.Contract Sim.t.
Proof.
  constructor.
  - intros p r. cbn. unfold Sim.seek.
    destruct ((0 <=? p) && (p <=? Sim.length_ms r)); reflexivity.
  - intros p r. cbn. unfold Sim.seek.
    destruct ((0 <=? p) && (p <=? Sim.length_ms r)); reflexivity.
  - intros n e r. reflexivity.
  - intros n e r. reflexivity.
  - exact Sim_read_bounded.
Qed.

(* ------------------------------------------------------------------------- *)
(** ** The claims on concrete clips *)

Ltac by_computation :=
  first [ reflexivity | lia | (vm_compute; first [ reflexivity | easy ]) ].

(** Discharges the premises of [H], one after the other, by evaluation. *)
Ltac feed H :=
  repeat match type of H with
         | ?A -> _ =>
             let h := fresh "prem" in
             assert (h : A) by by_computation; specialize (H h); clear h
         end.

(** C1 on the scenario clip: a 5000 ms source shown at [0,5000). *)
Lemma C1_duration_witness :
  exists x0 : AudioClip.t Sim.t,
    Example.make 5000 48000 0 5000 0 0 = Ok x0
    /\ AudioClip.Duration x0 = 5000 - 0.
Proof.
  pose proof (C1_duration_is_timeline_span (MR := Sim.reader)
                1 (Sim.mkParser 0 5000) 2 48000 "flt" 0 5000 0 0
                (Sim.mk 0 0 0 true 5000 0)
                (Sim.mk 2 48000 8 true 5000 0)
                (Sim.mk 2 48000 8 true 5000 0)) as Hw.
  feed Hw. destruct Hw as (x0 & E & D & _).
  exists x0. split; [exact E | exact D].
Defined.



(** Two inputs.  SeekTo(5000) on the scenario clip read to its end returns
    early and leaves eof set.  SeekTo(1) on a fresh 44100 Hz clip sets
    readSamples to 44, and ReadPos() is then start + 0: one millisecond,
    that is 44.1 sample periods, away from start + 1. *)
Lemma C3_SeekTo_counterexample :
  ~ SeekTo_as_stated Example.clipA_done 5000
  /\ ~ SeekTo_as_stated Example.clip44 1.
Proof.
  split; intro H.
  - assert (Hin : 0 <= 5000 <= AudioClip.Duration Example.clipA_done)
      by by_computation.
    destruct (H Hin) as (_ & _ & Heof & _).
    vm_compute in Heof. discriminate Heof.
  - assert (Hin : 0 <= 1 <= AudioClip.Duration Example.clip44)
      by by_computation.
    destruct (H Hin) as (_ & _ & _ & Hpos).
    vm_compute in Hpos. apply Hpos. reflexivity.
Qed.

(** C3 on the scenario clip: SeekTo(1000). *)
Lemma C3_SeekTo_witness :
  exists x' : AudioClip.t Sim.t,
    AudioClip.SeekTo 1000 Example.clipA = (Ok tt, x')
    /\ AudioClip.m_readSamples x' = 1000 * 48000 / 1000
    /\ AudioClip.ReadPos x' <= 0 + 1000.
Proof.
  pose proof (C3_SeekTo_in_range Sim_contract Example.clipA 1000) as Hw.
  cbv zeta in Hw. feed Hw. destruct Hw as [_ HB].
  assert (E : AudioClip.SeekTo 1000 Example.clipA
              = (Ok tt, snd (AudioClip.SeekTo 1000 Example.clipA)))
    by (vm_compute; reflexivity).
  exists (snd (AudioClip.SeekTo 1000 Example.clipA)).
  split; [exact E|].
  destruct (HB _ E) as (H1 & H2 & _). split; [exact H1 | exact H2].
Defined.

(** C4 on the scenario clip: SeekTo(-1) and SeekTo(5001). *)
Lemma C4_SeekTo_witness :
  AudioClip.SeekTo (-1) Example.clipA = (Ok tt, Example.clipA)
  /\ AudioClip.SeekTo 5001 Example.clipA = (Ok tt, Example.clipA).
Proof.
  split.
  - apply C4_SeekTo_out_of_range_is_noop. left. lia.
  - apply C4_SeekTo_out_of_range_is_noop. right. by_computation.
Defined.

(** The specification's own scenario: ChangeStartOffset(1000) takes
    totalSamples from 240000 to 192000 and leaves LeftSamples() at 240000. *)
Lemma C5_ChangeStartOffset_counterexample :
  ~ ChangeStartOffset_as_stated Example.clipA 1000.
Proof.
  intro H.
  assert (H1 : 0 <= 1000) by lia.
  assert (H2 : 1000 + AudioClip.m_endOffset Example.clipA
               < AudioClip.m_srcDuration Example.clipA) by by_computation.
  specialize (H H1 H2). vm_compute in H. discriminate H.
Qed.

(** C5 on the scenario clip, reading forward: ChangeStartOffset(1000) takes
    totalSamples from 240000 to 192000 and readSamples from 0 to -48000, so
    LeftSamples() stays where it was. *)
Lemma C5_ChangeStartOffset_witness :
  exists x' : AudioClip.t Sim.t,
    AudioClip.ChangeStartOffset 1000 Example.clipA = (Ok tt, x')
    /\ AudioClip.StartOffset x' = 1000
    /\ AudioClip.m_totalSamples x' = 192000
    /\ AudioClip.m_readSamples x' = 0 + (192000 - 240000)
    /\ AudioClip.LeftSamples x' = AudioClip.LeftSamples Example.clipA.
Proof.
  pose proof (C5_ChangeStartOffset_LeftSamples Example.clipA 1000) as Hw.
  feed Hw. destruct Hw as (x' & E & Hso & _ & Hnew & H).
  exists x'. split; [exact E|]. split; [exact Hso|].
  cbv zeta in H.
  assert (Hx : x' = snd (AudioClip.ChangeStartOffset 1000 Example.clipA))
    by (rewrite E; reflexivity).
  assert (Ht : AudioClip.m_totalSamples x' = 192000)
    by (rewrite Hx; vm_compute; reflexivity).
  split; [exact Ht|].
  rewrite Ht in H.
  assert (Hd : is_int64 (AudioClip.m_readSamples Example.clipA
                         + (192000 - AudioClip.m_totalSamples Example.clipA)))
    by by_computation.
  destruct (H Hd) as (Hr & Hf & _).
  split; [exact Hr|]. apply Hf. reflexivity.
Defined.

(** A clip built with startOffset = endOffset = 600 over a 1000 ms source:
    construction succeeds and startOffset + endOffset exceeds
    sourceDuration. *)
Lemma C6_offsets_counterexample :
  exists x0 : AudioClip.t Sim.t,
    Example.make 1000 48000 0 100 600 600 = Ok x0
    /\ ~ offsets_invariant x0.
Proof.
  eexists. split; [vm_compute; reflexivity|].
  vm_compute. intro H. discriminate H.
Qed.

(** C6 on the scenario clip: ChangeStartOffset(1000). *)
Lemma C6_offsets_witness :
  offsets_invariant (snd (AudioClip.ChangeStartOffset 1000 Example.clipA)).
Proof.
  pose proof (C6_offsets_invariant Example.clipA 1000) as Hw.
  feed Hw. destruct Hw as (_ & H & _).
  apply (H (snd (AudioClip.ChangeStartOffset 1000 Example.clipA))).
  - vm_compute. reflexivity.
  - by_computation.
Defined.

(** The input on which Update() leaves the window inverted.  A clip is
    built at [5000,5100) over a 5000 ms source (padding -4900);
    ChangeStartOffset(1000) passes its check (1000 + 0 < 5000) and leaves
    Duration() = -900, that is End() = 4100 before Start() = 5000.  Behind
    the long clip at [0,10000), Update() sets the window to (5000, 4100). *)
Lemma C7_Update_counterexample :
  Example.make 5000 48000 5000 5100 0 0 = Ok Example.clipShort
  /\ AudioClip.ChangeStartOffset 1000 Example.clipShort
     = (Ok tt, Example.clipTrimmed)
  /\ AudioClip.Duration Example.clipTrimmed = -900
  /\ AudioClip.Start Example.clipTrimmed = 5000
  /\ AudioClip.End Example.clipTrimmed = 4100
  /\ ~ Update_postcondition Example.overlap01
         (Example.store2 Example.clipLong Example.clipTrimmed).
Proof.
  split; [vm_compute; reflexivity|].
  split; [vm_compute; reflexivity|].
  split; [vm_compute; reflexivity|].
  split; [vm_compute; reflexivity|].
  split; [vm_compute; reflexivity|].
  intro H. destruct H as (_ & H & _).
  vm_compute in H. apply H. reflexivity.
Qed.

(** C7 on two inputs: the scenario (clipA at [0,5000), clipB at [3000,8000)),
    where the window is (3000, 5000), and the long clip followed by the
    trimmed clip, where it is (5000, 4100). *)
Lemma C7_Update_witness :
  (let o' := AudioOverlap.Update Example.overlap01
               (Example.store2 Example.clipA Example.clipB) in
   AudioOverlap.m_start o' = 3000 /\ AudioOverlap.m_end o' = 5000
   /\ AudioOverlap.m_start o' <= AudioOverlap.m_end o')
  /\ (let o' := AudioOverlap.Update Example.overlap01
                  (Example.store2 Example.clipLong Example.clipTrimmed) in
      AudioOverlap.m_start o' = 5000 /\ AudioOverlap.m_end o' = 4100
      /\ AudioOverlap.m_end o' < AudioOverlap.m_start o').
Proof.
  split.
  - pose proof (C7_Update_window Example.overlap01
                  (Example.store2 Example.clipA Example.clipB)) as Hw.
    cbv zeta in Hw |- *.
    destruct Hw as (_ & _ & _ & Hwin & _ & Hreal & _).
    feed Hwin. feed Hreal.
    destruct Hwin as [Hs He]. destruct Hreal as [Hle _].
    split; [rewrite Hs; vm_compute; reflexivity|].
    split; [rewrite He; vm_compute; reflexivity | exact Hle].
  - pose proof (C7_Update_window Example.overlap01
                  (Example.store2 Example.clipLong Example.clipTrimmed)) as Hw.
    cbv zeta in Hw |- *.
    destruct Hw as (_ & _ & _ & Hwin & _ & _ & Hinv).
    feed Hwin. feed Hinv.
    destruct Hwin as [Hs He].
    split; [rewrite Hs; vm_compute; reflexivity|].
    split; [rewrite He; vm_compute; reflexivity | exact Hinv].
Defined.

(** The scenario's window, evaluated. *)
Example Update_scenario :
  let o := AudioOverlap.AudioOverlap_Impl 1 0%nat 1%nat
             (Example.store2 Example.clipA Example.clipB) in
  AudioOverlap.FrontClip o = 0%nat /\ AudioOverlap.RearClip o = 1%nat
  /\ AudioOverlap.Start o = 3000 /\ AudioOverlap.End o = 5000
  /\ AudioOverlap.Duration o = 2000.
Proof. vm_compute. repeat split; reflexivity. Qed.

(** C8 on the scenario's two clips. *)
Lemma C8_HasOverlap_witness :
  AudioOverlap.HasOverlap 0%nat 1%nat
    (Example.store2 Example.clipA Example.clipB)
  = AudioOverlap.HasOverlap 1%nat 0%nat
      (Example.store2 Example.clipA Example.clipB).
Proof.
  pose proof (C8_HasOverlap_symmetric 0%nat 1%nat
                (Example.store2 Example.clipA Example.clipB)) as Hw.
  feed Hw. destruct Hw as (H & _). exact H.
Defined.

(** C9 on the scenario clip read to its end: SeekTo(5000). *)
Lemma C9_SeekTo_witness :
  AudioClip.SeekTo 5000 Example.clipA_done = (Ok tt, Example.clipA_done)
  /\ AudioClip.m_eof (snd (AudioClip.SeekTo 5000 Example.clipA_done)) = true.
Proof.
  pose proof (C9_SeekTo_same_target_returns_early Example.clipA_done 5000)
    as Hw.
  feed Hw. destruct Hw as (H1 & _ & _ & H2).
  split; [exact H1 | apply H2; reflexivity].
Defined.

(** Overlap.ReadAudioSamples(200000) over the padded clip read backwards
    (144000 samples left) and the scenario clip read backwards from 4000 ms
    (192000 left): the count is clamped to 144000, the front clip hands back
    96000 samples of silence, and the rear clip is asked for 96000, which
    leaves its readSamples at 192000 - 96000. *)
Example Overlap_read_example :
  let rear :=
    AudioClip.run [AudioClip.CallSeekTo 4000; AudioClip.CallSetDirection false]
                  Example.clipA in
  let st := Example.store2 Example.clipP_back rear in
  clampedCount 200000 Example.overlap01 st = 144000
  /\ exists res st',
       AudioOverlap.ReadAudioSamples 200000 false Example.overlap01 st
       = (Ok res, st')
       /\ AudioOverlap.readSamples res = 96000
       /\ AudioClip.m_readSamples (st' 0%nat) = 144000 - 96000
       /\ AudioClip.m_readSamples (st' 1%nat) = 192000 - 96000.
Proof.
  cbv zeta. split; [vm_compute; reflexivity|].
  eexists. eexists. split; [vm_compute; reflexivity|].
  vm_compute. repeat split; reflexivity.
Qed.

(* ========================================================================= *)
(** * Further properties of the clip and the overlap *)

#[local] Opaque wrap64 wrap_u32 wrap_i32.

Section MoreClipProperties.
Context {R : Type} {MR : MediaReader.Interface R}.

Local Abbreviation Clip := (AudioClip.t R).

(** *** Construction *)

(** The constructor opens and configures the session before it looks at its
    numeric arguments, and starts it after.  It succeeds exactly when the
    source has an audio stream, the three session calls succeed and the
    arguments are valid; it throws invalid_argument exactly when the source
    has no audio stream, or the session opened and configured and an
    argument is invalid; in every other case (a session call failed) it
    throws runtime_error - also when an argument is invalid but the session
    could not be opened or configured. *)
Theorem AudioClip_AudioImpl_outcome :
  forall (id : Z) (hParser : MediaReader.Parser) (ch rate : Z) (fmt : string)
         (start end_ so eo : Z),
    let idx := MediaReader.GetBestAudioStreamIndex hParser in
    let opened := MediaReader.Open hParser MediaReader.CreateInstance in
    let configured := MediaReader.ConfigAudioReader ch rate fmt (snd opened) in
    let started := MediaReader.Start (snd configured) in
    let valid := 0 <= so /\ 0 <= eo /\ start < end_ in
    let made : Result Clip :=
      AudioClip.AudioClip_AudioImpl id hParser ch rate fmt start end_ so eo in
    ((exists x0, made = Ok x0)
     <-> 0 <= idx /\ fst opened = true /\ fst configured = true /\ valid
         /\ fst started = true)
    /\ ((exists what, made = Throw (invalid_argument what))
        <-> idx < 0
            \/ (fst opened = true /\ fst configured = true /\ ~ valid))
    /\ (made = Throw runtime_error
        <-> 0 <= idx
            /\ (fst opened = false
                \/ (fst opened = true /\ fst configured = false)
                \/ (fst opened = true /\ fst configured = true /\ valid
                    /\ fst started = false))).
Proof.
  intros id hParser ch rate fmt start end_ so eo.
  cbv zeta. unfold AudioClip.AudioClip_AudioImpl.
  destruct (Z.ltb_spec (MediaReader.GetBestAudioStreamIndex hParser) 0)
    as [Hidx | Hidx].
  { split; [|split].
    - split; [intros [x0 E]; discriminate | intros [? _]; lia].
    - split; [intros _; left; assumption | intros _; eexists; reflexivity].
    - split; [discriminate | intros [? _]; lia]. }
  destruct (MediaReader.Open hParser MediaReader.CreateInstance) as [o r1].
  cbn [fst snd].
  destruct o; cbn [negb].
  2:{ split; [|split].
      - split; [intros [x0 E]; discriminate | intros (_ & ? & _); discriminate].
      - split; [intros [w E]; discriminate
               | intros [? | (? & _)]; [lia | discriminate]].
      - split; [intros _; split; [assumption | left; reflexivity]
               | reflexivity]. }
  destruct (MediaReader.ConfigAudioReader ch rate fmt r1) as [c r2].
  cbn [fst snd].
  destruct c; cbn [negb].
  2:{ split; [|split].
      - split; [intros [x0 E]; discriminate
               | intros (_ & _ & ? & _); discriminate].
      - split; [intros [w E]; discriminate
               | intros [? | (_ & ? & _)]; [lia | discriminate]].
      - split; [intros _; split; [assumption | right; left; split; reflexivity]
               | reflexivity]. }
  destruct (Z.ltb_spec so 0) as [Hso | Hso].
  { split; [|split].
    - split; [intros [x0 E]; discriminate | intros (_ & _ & _ & ? & _); lia].
    - split; [intros _; right; repeat split; lia
             | intros _; eexists; reflexivity].
    - split; [discriminate
             | intros (_ & [? | [(_ & ?) | (_ & _ & ? & _)]]);
               [discriminate | discriminate | lia]]. }
  destruct (Z.ltb_spec eo 0) as [Heo | Heo].
  { split; [|split].
    - split; [intros [x0 E]; discriminate | intros (_ & _ & _ & ? & _); lia].
    - split; [intros _; right; repeat split; lia
             | intros _; eexists; reflexivity].
    - split; [discriminate
             | intros (_ & [? | [(_ & ?) | (_ & _ & ? & _)]]);
               [discriminate | discriminate | lia]]. }
  destruct (Z.leb_spec end_ start) as [Hse | Hse].
  { split; [|split].
    - split; [intros [x0 E]; discriminate | intros (_ & _ & _ & ? & _); lia].
    - split; [intros _; right; repeat split; lia
             | intros _; eexists; reflexivity].
    - split; [discriminate
             | intros (_ & [? | [(_ & ?) | (_ & _ & ? & _)]]);
               [discriminate | discriminate | lia]]. }
  cbv zeta. destruct (MediaReader.Start r2) as [st r3]. cbn [fst].
  destruct st; cbn [negb].
  - split; [|split].
    + split; [intros _; repeat split; assumption
             | intros _; eexists; reflexivity].
    + split; [intros [w E]; discriminate
             | intros [? | (_ & _ & ?)]; [lia | tauto]].
    + split; [discriminate
             | intros (_ & [? | [(_ & ?) | (_ & _ & _ & ?)]]); discriminate].
  - split; [|split].
    + split; [intros [x0 E]; discriminate
             | intros (_ & _ & _ & _ & ?); discriminate].
    + split; [intros [w E]; discriminate
             | intros [? | (_ & _ & ?)]; [lia | tauto]].
    + split; [intros _; split; [assumption|]; right; right;
              repeat split; assumption
             | reflexivity].
Qed.

(** A clip that has just been built has read nothing: readSamples is 0,
    eof and the first-read marker are clear, no track and no filter are
    attached, totalSamples is Duration() * outSampleRate / 1000 with the rate
    the caller asked for, and ReadPos() is the start it was given.  ReadPos()
    divides by the rate the session reports (line 132), so that rate is
    required not to be 0. *)
Theorem AudioClip_AudioImpl_fresh :
  forall (id : Z) (hParser : MediaReader.Parser) (ch rate : Z) (fmt : string)
         (start end_ so eo : Z) (x0 : Clip),
    is_int64 start ->
    AudioClip.AudioClip_AudioImpl id hParser ch rate fmt start end_ so eo
    = Ok x0 ->
    AudioClip.OutSampleRate x0 <> 0 ->
    AudioClip.m_readSamples x0 = 0
    /\ AudioClip.m_eof x0 = false
    /\ AudioClip.m_initSeek x0 = false
    /\ AudioClip.TrackId x0 = -1
    /\ AudioClip.m_filter x0 = None
    /\ AudioClip.Id x0 = id
    /\ AudioClip.Start x0 = start
    /\ AudioClip.m_totalSamples x0
       = div64 (mul64 (AudioClip.Duration x0) rate) 1000
    /\ AudioClip.ReadPos x0 = start.
Proof.
  intros id hParser ch rate fmt start end_ so eo x0 Hstart.
  unfold AudioClip.AudioClip_AudioImpl.
  destruct (MediaReader.GetBestAudioStreamIndex hParser <? 0);
    [discriminate|].
  destruct (MediaReader.Open hParser MediaReader.CreateInstance) as [o r1].
  destruct o; cbn [negb]; [|discriminate].
  destruct (MediaReader.ConfigAudioReader ch rate fmt r1) as [c r2].
  destruct c; cbn [negb]; [|discriminate].
  destruct (so <? 0); [discriminate|].
  destruct (eo <? 0); [discriminate|].
  destruct (end_ <=? start); [discriminate|].
  cbv zeta. destruct (MediaReader.Start r2) as [st r3].
  destruct st; cbn [negb]; [|discriminate].
  intro E. inversion E; subst x0; clear E. intro Hrate.
  repeat split.
  unfold AudioClip.OutSampleRate in Hrate. cbn in Hrate.
  unfold AudioClip.ReadPos, AudioClip.OutSampleRate, add64, div64, mul64.
  cbn [AudioClip.m_readSamples AudioClip.m_srcReader AudioClip.m_start
       AudioClip.set_srcReader AudioClip.set_totalSamples Z.mul].
  rewrite wrap64_0, (Z.quot_0_l _ Hrate).
  rewrite wrap64_0. apply wrap64_id. exact Hstart.
Qed.

(** *** Invariants along the life of a clip *)

Lemma exec_offsets_nonneg : forall k (x : Clip),
  0 <= AudioClip.m_startOffset x /\ 0 <= AudioClip.m_endOffset x ->
  0 <= AudioClip.m_startOffset (AudioClip.exec k x)
  /\ 0 <= AudioClip.m_endOffset (AudioClip.exec k x).
Proof.
  intros k x Hx.
  destruct k as [v|v|v|v|v|n e|b|f]; cbn [AudioClip.exec].
  - exact Hx.
  - exact Hx.
  - destruct (ChangeStartOffset_cases v x)
      as [[_ E] | [(_ & _ & (w & E)) | (_ & Hv & _ & E)]];
      rewrite E; cbn; tauto.
  - destruct (ChangeEndOffset_cases v x)
      as [[_ E] | [(_ & _ & (w & E)) | (_ & Hv & _ & E)]];
      rewrite E; cbn; tauto.
  - unfold AudioClip.SeekTo.
    repeat lazymatch goal with
           | |- context [if ?b then _ else _] => destruct b
           | |- context [let (_, _) := ?p in _] => destruct p
           end; exact Hx.
  - destruct (ReadAudioSamples_frame n e x)
      as (_ & _ & _ & _ & _ & Hso & Heo & _).
    rewrite Hso, Heo. exact Hx.
  - exact Hx.
  - exact Hx.
Qed.

(** Whatever calls are made on a clip after its construction, and whether
    they return or throw, startOffset and endOffset are never negative. *)
Theorem offsets_never_negative :
  forall (id : Z) (hParser : MediaReader.Parser) (ch rate : Z) (fmt : string)
         (start end_ so eo : Z) (x0 x : Clip),
    AudioClip.AudioClip_AudioImpl id hParser ch rate fmt start end_ so eo
    = Ok x0 ->
    AudioClip.Reachable x0 x ->
    0 <= AudioClip.StartOffset x /\ 0 <= AudioClip.EndOffset x.
Proof.
  intros id hParser ch rate fmt start end_ so eo x0 x E Hr.
  unfold AudioClip.StartOffset, AudioClip.EndOffset.
  induction Hr as [|y k Hr IH].
  - destruct (AudioClip_AudioImpl_offsets _ _ _ _ _ _ _ _ _ _ E)
      as (-> & -> & ? & ? & _). split; assumption.
  - apply exec_offsets_nonneg. exact IH.
Qed.

(** *** Reading: what a read leaves alone, and how it fails *)

(** A read, whether it returns or throws, changes neither the placement of
    the clip nor its trim: Start(), End(), Duration(), both offsets,
    totalSamples, the track and the filter are what they were. *)
Theorem ReadAudioSamples_keeps_placement : forall (n : Z) (e : bool) (x : Clip),
  let x' := snd (AudioClip.ReadAudioSamples n e x) in
  AudioClip.Start x' = AudioClip.Start x
  /\ AudioClip.End x' = AudioClip.End x
  /\ AudioClip.Duration x' = AudioClip.Duration x
  /\ AudioClip.StartOffset x' = AudioClip.StartOffset x
  /\ AudioClip.EndOffset x' = AudioClip.EndOffset x
  /\ AudioClip.m_totalSamples x' = AudioClip.m_totalSamples x
  /\ AudioClip.TrackId x' = AudioClip.TrackId x
  /\ AudioClip.m_filter x' = AudioClip.m_filter x.
Proof.
  intros n e x. cbv zeta.
  destruct (ReadAudioSamples_frame n e x)
    as (_ & Htr & Hf & Hsd & Hst & Hso & Heo & Hpd & Hts).
  assert (Hd : AudioClip.Duration (snd (AudioClip.ReadAudioSamples n e x))
               = AudioClip.Duration x)
    by (unfold AudioClip.Duration; rewrite Hsd, Hpd, Hso, Heo; reflexivity).
  unfold AudioClip.End, AudioClip.Start, AudioClip.StartOffset,
    AudioClip.EndOffset, AudioClip.TrackId.
  rewrite Hd, Hst. repeat split; assumption.
Qed.




(** *** Reading at the end of the clip *)

Lemma set_eof_same : forall (x : Clip),
  AudioClip.m_eof x = true -> AudioClip.set_eof true x = x.
Proof.
  intros x Hx. destruct x. cbn in *. subst. reflexivity.
Qed.

(** A clip that is at eof, or has nothing left, is inert under reads: every
    read returns an empty buffer, a count of 0 and eof whatever count is
    asked for; the first one sets the eof flag, and no number of them
    changes anything else or reaches the source session. *)
Theorem reads_of_exhausted_clip : forall (x : Clip),
  AudioClip.m_eof x = true \/ AudioClip.LeftSamples x = 0 ->
  (forall n e,
     AudioClip.ReadAudioSamples n e x
     = (Ok (AudioClip.mkRead ImMat.new 0 true false),
        AudioClip.set_eof true x))
  /\ (forall (n : Z) (e : bool) (reads : list (Z * bool)),
        AudioClip.run
          (map (fun r => AudioClip.CallReadAudioSamples (fst r) (snd r))
               ((n, e) :: reads))
          x
        = AudioClip.set_eof true x)
  /\ AudioClip.m_srcReader (AudioClip.set_eof true x) = AudioClip.m_srcReader x
  /\ AudioClip.m_readSamples (AudioClip.set_eof true x)
     = AudioClip.m_readSamples x.
Proof.
  intros x Hx.
  assert (H1 : forall y : Clip,
     AudioClip.m_eof y = true \/ AudioClip.LeftSamples y = 0 ->
     forall n e,
     AudioClip.ReadAudioSamples n e y
     = (Ok (AudioClip.mkRead ImMat.new 0 true false),
        AudioClip.set_eof true y)).
  { intros y Hy n e. unfold AudioClip.ReadAudioSamples.
    replace (AudioClip.m_eof y || (AudioClip.LeftSamples y =? 0)) with true;
      [reflexivity|].
    symmetry. apply orb_true_iff.
    destruct Hy as [Hy | Hy]; [left; exact Hy | right].
    apply Z.eqb_eq. exact Hy. }
  split; [exact (H1 x Hx)|]. split; [|split; reflexivity].
  intros n e reads. unfold AudioClip.run.
  cbn [map fold_left fst snd AudioClip.exec]. rewrite (H1 x Hx). cbn [snd].
  set (y := AudioClip.set_eof true x).
  assert (Hy : AudioClip.m_eof y = true) by reflexivity.
  clearbody y. clear Hx.
  induction reads as [|[n' e'] reads IH].
  - reflexivity.
  - cbn [map fold_left fst snd AudioClip.exec].
    rewrite (H1 y (or_introl Hy)). cbn [snd].
    rewrite (set_eof_same y Hy). exact IH.
Qed.

(** *** Accounting *)

Lemma leftOf_after_part : forall (fwd : bool) (T R0 d : Z),
  is_int64 R0 -> is_int64 T ->
  T - R0 <= uint32_max -> R0 <= uint32_max ->
  0 <= d <= leftOf fwd T R0 ->
  leftOf fwd T (add64 R0 (if fwd then d else neg64 d))
  = leftOf fwd T R0 - d.
Proof.
  intros fwd T R0 d Hr Ht Hfwd Hrev Hd.
  assert (Hid : forall z, - 2 ^ 63 <= z <= 2 ^ 63 - 1 -> wrap64 z = z)
    by (intros z Hz; apply wrap64_id; exact Hz).
  assert (Hu : forall z, 0 <= z <= 2 ^ 32 - 1 -> wrap_u32 z = z)
    by (intros z Hz; apply wrap_u32_id; exact Hz).
  unfold is_int64, int64_min, int64_max, uint32_max in *.
  unfold leftOf in Hd |- *. destruct fwd.
  - unfold sub64 in *. rewrite !wrap_u32_wrap64 in *.
    destruct (Z.gtb_spec T R0) as [Hgt | Hle].
    + rewrite (Hu (T - R0)) in * by lia.
      unfold add64. rewrite (Hid (R0 + d)) by lia.
      destruct (Z.gtb_spec T (R0 + d)).
      * rewrite Hu by lia. lia.
      * lia.
    + assert (d = 0) by lia. subst d.
      unfold add64. rewrite Z.add_0_r, (Hid R0) by lia.
      destruct (Z.gtb_spec T R0); lia.
  - destruct (Z.gtb_spec R0 T) as [Hgt | Hle].
    + assert (d = 0) by lia. subst d.
      unfold add64, neg64. cbn [Z.opp].
      rewrite wrap64_0, Z.add_0_r, (Hid R0) by lia.
      destruct (Z.gtb_spec R0 T); lia.
    + destruct (R0 >=? 0) eqn:Hnn.
      * rewrite Z.geb_leb in Hnn. apply Z.leb_le in Hnn.
        rewrite (Hu R0) in * by lia.
        unfold add64, neg64. rewrite (Hid (- d)) by lia.
        rewrite (Hid (R0 + - d)) by lia.
        destruct (Z.gtb_spec (R0 + - d) T); [lia|].
        destruct (Z.geb_spec (R0 + - d) 0); [|lia].
        rewrite Hu by lia. lia.
      * assert (d = 0) by lia. subst d.
        unfold add64, neg64. cbn [Z.opp].
        rewrite wrap64_0, Z.add_0_r, (Hid R0) by lia.
        destruct (Z.gtb_spec R0 T); [lia|]. rewrite Hnn. lia.
Qed.

(** Every read that returns takes exactly the delivered count off what is
    left: LeftSamples() afterwards is LeftSamples() before minus the count
    handed back, in either reading direction (the counters being int64
    values and what is left fitting uint32), and readSamples has moved by
    that count.  So a sequence of reads can never deliver more, in total,
    than LeftSamples() said at the outset. *)
Theorem ReadAudioSamples_accounting :
  forall (HC : MediaReader.Contract R) (x : Clip) (n : Z) (e : bool) res x',
    0 <= n ->
    is_int64 (AudioClip.m_readSamples x) ->
    is_int64 (AudioClip.m_totalSamples x) ->
    AudioClip.m_totalSamples x - AudioClip.m_readSamples x <= uint32_max ->
    AudioClip.m_readSamples x <= uint32_max ->
    AudioClip.ReadAudioSamples n e x = (Ok res, x') ->
    AudioClip.LeftSamples x'
    = AudioClip.LeftSamples x - AudioClip.readSamples res
    /\ AudioClip.m_readSamples x'
       = add64 (AudioClip.m_readSamples x)
           (if MediaReader.IsDirectionForward (AudioClip.m_srcReader x)
            then AudioClip.readSamples res
            else neg64 (AudioClip.readSamples res)).
Proof.
  intros HC x n e res x' Hn Hr Ht Hfwd Hrev E.
  assert (Hadd0 : forall b : bool,
            add64 (AudioClip.m_readSamples x) (if b then 0 else neg64 0)
            = AudioClip.m_readSamples x).
  { intro b. unfold add64, neg64. cbn [Z.opp].
    destruct b; rewrite ?wrap64_0, Z.add_0_r; apply wrap64_id; exact Hr. }
  destruct (ReadAudioSamples_inv n e x)
    as [[_ E1] | [[_ (x3 & _ & E1)]
                 | [_ (x3 & m & se & fwd & H3 & Hc & E1)]]];
    rewrite E1 in E; [| discriminate |].
  - inversion E; subst res x'; clear E.
    rewrite LeftSamples_set_eof. cbn. rewrite Hadd0. split; [lia|reflexivity].
  - rewrite stateUpdate_spec in E. cbv zeta in E.
    inversion E; subst res x'; clear E.
    cbn [AudioClip.readSamples]. rewrite LeftSamples_set_eof.
    destruct (Hc HC) as (Hf & Hdir & Hdel). specialize (Hdel Hn).
    destruct H3 as (_ & _ & _ & _ & _ & _ & _ & _ & Hrs & Hts & _).
    pose proof (delivered_nonneg m) as Hd0.
    pose proof (LeftSamples_nonneg x) as Hl0.
    assert (Hd : 0 <= delivered m <= AudioClip.LeftSamples x)
      by (destruct (Z.gtb_spec n (AudioClip.LeftSamples x)); lia).
    assert (Hsame :
      (if ImMat.empty m then AudioClip.m_readSamples x3
       else add64 (AudioClip.m_readSamples x3)
                  (if fwd then delivered m else neg64 (delivered m)))
      = add64 (AudioClip.m_readSamples x)
              (if fwd then delivered m else neg64 (delivered m))).
    { rewrite Hrs. destruct (ImMat.empty m) eqn:Hm; [|reflexivity].
      unfold delivered. rewrite Hm. symmetry. apply Hadd0. }
    rewrite Hsame. rewrite LeftSamples_leftOf.
    cbn [AudioClip.m_srcReader AudioClip.m_totalSamples
         AudioClip.m_readSamples AudioClip.set_readSamples AudioClip.set_eof].
    fold (MediaReader.IsDirectionForward (AudioClip.m_srcReader x3)).
    rewrite Hts, Hf. cbv beta in Hdir. rewrite Hdir. split; [|reflexivity].
    rewrite (LeftSamples_leftOf x) in *.
    apply leftOf_after_part; assumption.
Qed.

(** *** Timestamps *)

Lemma timeStampOf_session_only : forall p (x x' : Clip),
  session_only x x' ->
  AudioClip.timeStampOf p x' = AudioClip.timeStampOf p x.
Proof.
  intros p x x' (_ & _ & _ & _ & Hst & Hso & _).
  unfold AudioClip.timeStampOf. rewrite Hst, Hso. reflexivity.
Qed.

Lemma compensate_stamp : forall rate ch n p (x : Clip) sf x' m se,
  AudioClip.compensate rate ch n p x = (sf, x', m, se) ->
  ImMat.empty m = false ->
  ImMat.time_stamp m = AudioClip.timeStampOf p x.
Proof.
  intros rate ch n p x sf x' m se. unfold AudioClip.compensate. cbv zeta.
  repeat lazymatch goal with
         | |- (if ?b then _ else _) = _ -> _ => destruct b
         end; intro E; inversion E; subst; cbn; intro Hne;
    try discriminate Hne; reflexivity.
Qed.

Lemma readFromSource_stamp : forall n p m0 se0 (x : Clip) rf x' m se,
  AudioClip.readFromSource n p m0 se0 x = (rf, x', m, se) ->
  AudioClip.m_eof x = false ->
  (ImMat.empty m0 = false ->
   ImMat.time_stamp m0 = AudioClip.timeStampOf p x) ->
  ImMat.time_stamp m = AudioClip.timeStampOf p x.
Proof.
  intros n p m0 se0 x rf x' m se. unfold AudioClip.readFromSource.
  intros E Heof H0. rewrite Heof in E. cbn [negb andb] in E.
  destruct (ImMat.empty m0) eqn:Hm.
  - inversion E; subst. reflexivity.
  - inversion E; subst. apply H0. reflexivity.
Qed.

(** The buffer a read returns never carries the source's own timestamp:
    whenever the read goes past the eof test and no filter is attached, the
    buffer is stamped (double)(expectedReadPos - startOffset + start) / 1000,
    where expectedReadPos comes from the clip's readSamples counter as it
    was before the call - silence and source frames alike. *)
Theorem ReadAudioSamples_timestamp :
  forall (n : Z) (e : bool) (x x' : Clip) res,
    AudioClip.m_eof x = false ->
    AudioClip.LeftSamples x <> 0 ->
    AudioClip.m_filter x = None ->
    AudioClip.ReadAudioSamples n e x = (Ok res, x') ->
    ImMat.time_stamp (AudioClip.amat res)
    = AudioClip.timeStampOf
        (AudioClip.expectedReadPosOf
           (MediaReader.GetAudioOutSampleRate (AudioClip.m_srcReader x)) x)
        x.
Proof.
  intros n e x x' res Heof Hleft Hfilter.
  unfold AudioClip.ReadAudioSamples.
  rewrite Heof. apply Z.eqb_neq in Hleft. rewrite Hleft. cbn [orb].
  cbv zeta.
  set (rate := MediaReader.GetAudioOutSampleRate (AudioClip.m_srcReader x)).
  set (p := AudioClip.expectedReadPosOf rate x).
  pose proof (prepareRead_session_only p x) as H1.
  set (x1 := AudioClip.prepareRead p x) in *.
  match goal with
  | |- context [AudioClip.compensate ?a ?b ?c ?d x1] =>
      destruct (AudioClip.compensate a b c d x1)
        as [[[sf x2] m1] se1] eqn:Ec
  end.
  pose proof (compensate_session_only _ _ _ _ _ _ _ _ _ Ec) as H2.
  pose proof (compensate_stamp _ _ _ _ _ _ _ _ _ Ec) as Hs1.
  destruct sf; [discriminate|].
  match goal with
  | |- context [AudioClip.readFromSource ?a ?b ?c ?d x2] =>
      destruct (AudioClip.readFromSource a b c d x2)
        as [[[rf x3] m2] se2] eqn:Er
  end.
  pose proof (readFromSource_session_only _ _ _ _ _ _ _ _ _ Er) as H3.
  assert (H12 : session_only x x2)
    by (eapply session_only_trans; eassumption).
  assert (H13 : session_only x x3)
    by (eapply session_only_trans; eassumption).
  assert (Heof2 : AudioClip.m_eof x2 = false).
  { destruct H12 as (_ & _ & _ & _ & _ & _ & _ & _ & _ & _ & He).
    congruence. }
  assert (Hs2 : ImMat.time_stamp m2 = AudioClip.timeStampOf p x2).
  { eapply readFromSource_stamp; [exact Er | exact Heof2 |].
    intro Hne. rewrite (Hs1 Hne). symmetry.
    apply timeStampOf_session_only. exact H2. }
  destruct rf; [discriminate|].
  rewrite stateUpdate_spec. cbv zeta. intro E.
  inversion E; subst res x'; clear E.
  cbn [AudioClip.amat]. unfold AudioClip.applyFilter.
  cbn [AudioClip.m_filter AudioClip.set_eof AudioClip.set_readSamples].
  destruct H13 as (_ & _ & Hf3 & _).
  rewrite Hf3, Hfilter, Hs2.
  apply timeStampOf_session_only. exact H12.
Qed.

(** *** Seeking twice *)

Lemma SeekTo_keeps_placement : forall (pos : Z) (x : Clip),
  let x' := snd (AudioClip.SeekTo pos x) in
  AudioClip.m_start x' = AudioClip.m_start x
  /\ AudioClip.Duration x' = AudioClip.Duration x
  /\ AudioClip.m_totalSamples x' = AudioClip.m_totalSamples x.
Proof.
  intros pos x. cbv zeta. unfold AudioClip.SeekTo.
  repeat lazymatch goal with
         | |- context [if ?b then _ else _] => destruct b
         | |- context [let (_, _) := ?p in _] => destruct p
         end; cbn; repeat split; reflexivity.
Qed.

(** SeekTo is idempotent: after an in-range SeekTo(pos) has returned, a
    second SeekTo(pos) returns at once, issues no seek on the source session
    and changes nothing. *)
Theorem SeekTo_twice :
  forall (HC : MediaReader.Contract R) (x x' : Clip) (pos : Z),
    0 <= pos <= AudioClip.Duration x ->
    AudioClip.SeekTo pos x = (Ok tt, x') ->
    AudioClip.SeekTo pos x' = (Ok tt, x').
Proof.
  intros HC x x' pos Hin E.
  destruct (Z.eq_dec (targetReadSamples x pos) (AudioClip.m_readSamples x))
    as [Heq | Hne].
  - rewrite (SeekTo_same_target x pos Hin Heq) in E.
    inversion E; subst x'. apply SeekTo_same_target; assumption.
  - pose proof (SeekTo_in_range x pos Hin Hne) as Es. cbv zeta in Es.
    rewrite Es in E.
    destruct (MediaReader.SeekTo _ (AudioClip.m_srcReader x))
      as [ok r1] eqn:Er.
    cbn [fst snd] in E. destruct ok; [|discriminate].
    inversion E; subst x'; clear E.
    apply SeekTo_same_target.
    + exact Hin.
    + unfold targetReadSamples, AudioClip.OutSampleRate. cbn.
      match type of Er with
      | MediaReader.SeekTo ?q ?r = _ =>
          pose proof (MediaReader.SeekTo_rate q r) as Hrate
      end.
      rewrite Er in Hrate. cbn [snd] in Hrate. rewrite Hrate. reflexivity.
Qed.

(** *** Trimming *)

(** Trimming moves the end of the clip, never its start: a successful
    ChangeStartOffset(v) or ChangeEndOffset(v) leaves Start() alone and
    shortens Duration(), hence End(), by exactly the amount the offset grew
    (int64 arithmetic); the source session is not touched. *)
Theorem Change_offset_moves_the_end : forall (x x' : Clip) (v : Z),
  (AudioClip.ChangeStartOffset v x = (Ok tt, x') ->
   AudioClip.Start x' = AudioClip.Start x
   /\ AudioClip.Duration x'
      = wrap64 (AudioClip.Duration x - (v - AudioClip.StartOffset x))
   /\ AudioClip.End x'
      = wrap64 (AudioClip.End x - (v - AudioClip.StartOffset x))
   /\ AudioClip.EndOffset x' = AudioClip.EndOffset x
   /\ AudioClip.m_srcReader x' = AudioClip.m_srcReader x)
  /\ (AudioClip.ChangeEndOffset v x = (Ok tt, x') ->
      AudioClip.Start x' = AudioClip.Start x
      /\ AudioClip.Duration x'
         = wrap64 (AudioClip.Duration x - (v - AudioClip.EndOffset x))
      /\ AudioClip.End x'
         = wrap64 (AudioClip.End x - (v - AudioClip.EndOffset x))
      /\ AudioClip.StartOffset x' = AudioClip.StartOffset x
      /\ AudioClip.m_readSamples x' = AudioClip.m_readSamples x
      /\ AudioClip.m_srcReader x' = AudioClip.m_srcReader x).
Proof.
  intros x x' v.
  assert (Hnoop : forall y : Clip, forall a b : Z, a = b ->
            AudioClip.Duration y = wrap64 (AudioClip.Duration y - (a - b))
            /\ AudioClip.End y = wrap64 (AudioClip.End y - (a - b))).
  { intros y a b ->. rewrite Z.sub_diag, !Z.sub_0_r. split; symmetry.
    - apply wrap64_id. rewrite Duration_wrap. apply wrap64_range.
    - apply wrap64_id. unfold AudioClip.End, add64. apply wrap64_range. }
  split; intro E.
  - destruct (ChangeStartOffset_cases v x)
      as [[Heq E1] | [(_ & _ & (w & E1)) | (_ & _ & _ & E1)]];
      rewrite E1 in E; inversion E; subst x'; clear E.
    + destruct (Hnoop x v (AudioClip.StartOffset x) Heq).
      repeat split; assumption.
    + match goal with
      | |- AudioClip.Start ?y = _ /\ _ => set (x' := y)
      end.
      assert (Hd : AudioClip.Duration x'
                   = wrap64 (AudioClip.Duration x
                             - (v - AudioClip.StartOffset x))).
      { rewrite !Duration_wrap. unfold AudioClip.StartOffset. subst x'.
        cbn [AudioClip.m_srcDuration AudioClip.m_padding
             AudioClip.m_startOffset AudioClip.m_endOffset
             AudioClip.set_totalSamples AudioClip.set_readSamples
             AudioClip.set_startOffset].
        wrap64_ring. }
      split; [reflexivity|]. split; [exact Hd|].
      split; [|split; reflexivity].
      unfold AudioClip.End, add64. rewrite Hd.
      replace (AudioClip.m_start x') with (AudioClip.m_start x)
        by reflexivity.
      wrap64_ring.
  - destruct (ChangeEndOffset_cases v x)
      as [[Heq E1] | [(_ & _ & (w & E1)) | (_ & _ & _ & E1)]];
      rewrite E1 in E; inversion E; subst x'; clear E.
    + destruct (Hnoop x v (AudioClip.EndOffset x) Heq).
      repeat split; assumption.
    + match goal with
      | |- AudioClip.Start ?y = _ /\ _ => set (x' := y)
      end.
      assert (Hd : AudioClip.Duration x'
                   = wrap64 (AudioClip.Duration x
                             - (v - AudioClip.EndOffset x))).
      { rewrite !Duration_wrap. unfold AudioClip.EndOffset. subst x'.
        cbn [AudioClip.m_srcDuration AudioClip.m_padding
             AudioClip.m_startOffset AudioClip.m_endOffset
             AudioClip.set_totalSamples AudioClip.set_endOffset].
        wrap64_ring. }
      split; [reflexivity|]. split; [exact Hd|].
      split; [|repeat split; reflexivity].
      unfold AudioClip.End, add64. rewrite Hd.
      replace (AudioClip.m_start x') with (AudioClip.m_start x)
        by reflexivity.
      wrap64_ring.
Qed.

(** ChangeEndOffset is the mirror image of ChangeStartOffset for what is
    left to read.  It never moves readSamples.  With readSamples within
    [0, totalSamples] before and after the call and the totals within
    uint32: while the session reads forward LeftSamples() changes by exactly
    the difference between the new and the old totalSamples; while it reads
    backward LeftSamples() does not change. *)
Theorem ChangeEndOffset_LeftSamples : forall (x x' : Clip) (v : Z),
  AudioClip.ChangeEndOffset v x = (Ok tt, x') ->
  0 <= AudioClip.m_readSamples x <= AudioClip.m_totalSamples x ->
  AudioClip.m_readSamples x <= AudioClip.m_totalSamples x' ->
  AudioClip.m_totalSamples x <= uint32_max ->
  AudioClip.m_totalSamples x' <= uint32_max ->
  (MediaReader.IsDirectionForward (AudioClip.m_srcReader x) = true ->
   AudioClip.LeftSamples x' - AudioClip.LeftSamples x
   = AudioClip.m_totalSamples x' - AudioClip.m_totalSamples x)
  /\ (MediaReader.IsDirectionForward (AudioClip.m_srcReader x) = false ->
      AudioClip.LeftSamples x' = AudioClip.LeftSamples x).
Proof.
  intros x x' v E Hr Hr' Ht Ht'.
  assert (Hx' : AudioClip.m_readSamples x' = AudioClip.m_readSamples x
                /\ AudioClip.m_srcReader x' = AudioClip.m_srcReader x).
  { destruct (ChangeEndOffset_cases v x)
      as [[_ E1] | [(_ & _ & (w & E1)) | (_ & _ & _ & E1)]];
      rewrite E1 in E; inversion E; subst x'; split; reflexivity. }
  destruct Hx' as [Hrs Hrd].
  rewrite (LeftSamples_leftOf x'), (LeftSamples_leftOf x), Hrs, Hrd.
  set (R0 := AudioClip.m_readSamples x) in *.
  set (T := AudioClip.m_totalSamples x) in *.
  set (T' := AudioClip.m_totalSamples x') in *.
  assert (Hu : forall z, 0 <= z <= 2 ^ 32 - 1 -> wrap_u32 z = z)
    by (intros z Hz; apply wrap_u32_id; exact Hz).
  unfold uint32_max in *.
  assert (Hleft : forall U, R0 <= U -> U <= 2 ^ 32 - 1 ->
            leftOf true U R0 = U - R0 /\ leftOf false U R0 = R0).
  { intros U HU HU'. unfold leftOf, sub64. rewrite wrap_u32_wrap64. split.
    - destruct (Z.gtb_spec U R0); [apply Hu; lia | lia].
    - destruct (Z.gtb_spec R0 U); [lia|].
      destruct (Z.geb_spec R0 0); [apply Hu; lia | lia]. }
  destruct (Hleft T ltac:(lia) Ht) as [Hf Hb].
  destruct (Hleft T' Hr' Ht') as [Hf' Hb'].
  split; intros ->; lia.
Qed.

(** *** Cloning *)

(** A clone stands where the original stands: same id, Start(), End(),
    Duration() and offsets.  It does not inherit the progress or the
    attachments of the original: readSamples is 0, eof is clear, no track
    and no filter are attached. *)
Theorem Clone_keeps_placement :
  forall (hParser : MediaReader.Parser) (ch rate : Z) (fmt : string)
         (x y : Clip),
    AudioClip.Clone hParser ch rate fmt x = Ok y ->
    AudioClip.Id y = AudioClip.Id x
    /\ AudioClip.Start y = AudioClip.Start x
    /\ AudioClip.Duration y = AudioClip.Duration x
    /\ AudioClip.End y = AudioClip.End x
    /\ AudioClip.StartOffset y = AudioClip.StartOffset x
    /\ AudioClip.EndOffset y = AudioClip.EndOffset x
    /\ AudioClip.m_readSamples y = 0
    /\ AudioClip.m_eof y = false
    /\ AudioClip.TrackId y = -1
    /\ AudioClip.m_filter y = None.
Proof.
  intros hParser ch rate fmt x y E. unfold AudioClip.Clone in E.
  assert (Hfields :
    AudioClip.m_id y = AudioClip.m_id x
    /\ AudioClip.m_start y = AudioClip.m_start x
    /\ AudioClip.m_startOffset y = AudioClip.m_startOffset x
    /\ AudioClip.m_endOffset y = AudioClip.m_endOffset x
    /\ AudioClip.m_padding y
       = wrap64 (AudioClip.End x - AudioClip.m_start x
                 + AudioClip.m_startOffset y + AudioClip.m_endOffset y
                 - AudioClip.m_srcDuration y)
    /\ AudioClip.m_readSamples y = 0
    /\ AudioClip.m_eof y = false
    /\ AudioClip.m_trackId y = -1
    /\ AudioClip.m_filter y = None).
  { revert E. unfold AudioClip.AudioClip_AudioImpl.
    destruct (MediaReader.GetBestAudioStreamIndex hParser <? 0);
      [discriminate|].
    destruct (MediaReader.Open hParser MediaReader.CreateInstance) as [o r1].
    destruct o; cbn [negb]; [|discriminate].
    destruct (MediaReader.ConfigAudioReader ch rate fmt r1) as [c r2].
    destruct c; cbn [negb]; [|discriminate].
    destruct (_ <? 0); [discriminate|].
    destruct (_ <? 0); [discriminate|].
    destruct (_ <=? _); [discriminate|].
    cbv zeta. destruct (MediaReader.Start r2) as [st r3].
    destruct st; cbn [negb]; [|discriminate].
    intro E. inversion E; subst y; clear E. cbn.
    repeat split. apply padding_wrap. }
  destruct Hfields as (Hid & Hst & Hso & Heo & Hpd & Hrs & Hef & Htr & Hfl).
  assert (Hd : AudioClip.Duration y = AudioClip.Duration x).
  { rewrite (Duration_of_padding y _ _ Hpd).
    unfold AudioClip.End, add64.
    rewrite <- (wrap64_id (AudioClip.Duration x)) at 2
      by (rewrite Duration_wrap; apply wrap64_range).
    wrap64_ring. }
  unfold AudioClip.Id, AudioClip.Start, AudioClip.End, AudioClip.StartOffset,
    AudioClip.EndOffset, AudioClip.TrackId.
  rewrite Hd, Hst. repeat split; assumption.
Qed.

(** A clip whose Duration() is not positive (End() <= Start(), which
    ChangeStartOffset and ChangeEndOffset can bring about) cannot be cloned:
    once the session of the clone has opened and configured, the
    constructor rejects the span with invalid_argument. *)
Theorem Clone_rejects_empty_span :
  forall (hParser : MediaReader.Parser) (ch rate : Z) (fmt : string)
         (x : Clip) (r1 r2 : R),
    AudioClip.End x <= AudioClip.Start x ->
    0 <= AudioClip.StartOffset x -> 0 <= AudioClip.EndOffset x ->
    0 <= MediaReader.GetBestAudioStreamIndex hParser ->
    MediaReader.Open hParser MediaReader.CreateInstance = (true, r1) ->
    MediaReader.ConfigAudioReader ch rate fmt r1 = (true, r2) ->
    exists what,
      AudioClip.Clone hParser ch rate fmt x = Throw (invalid_argument what).
Proof.
  intros hParser ch rate fmt x r1 r2 Hspan Hso Heo Hidx Hopen Hconf.
  unfold AudioClip.Clone, AudioClip.AudioClip_AudioImpl.
  unfold AudioClip.Start, AudioClip.StartOffset, AudioClip.EndOffset in *.
  replace (MediaReader.GetBestAudioStreamIndex hParser <? 0) with false
    by (symmetry; apply Z.ltb_ge; lia).
  rewrite Hopen. cbn [negb]. rewrite Hconf. cbn [negb].
  replace (AudioClip.m_startOffset x <? 0) with false
    by (symmetry; apply Z.ltb_ge; lia).
  replace (AudioClip.m_endOffset x <? 0) with false
    by (symmetry; apply Z.ltb_ge; lia).
  replace (AudioClip.End x <=? AudioClip.m_start x) with true
    by (symmetry; apply Z.leb_le; lia).
  eexists. reflexivity.
Qed.

End MoreClipProperties.

Section MoreOverlapProperties.
Context {R : Type} {MR : MediaReader.Interface R}.

Local Abbreviation Clip := (AudioClip.t R).
Local Abbreviation Store := (AudioOverlap.Store (R := R)).

(** *** The window *)

(** Update() is idempotent: as long as the clips do not change, running it
    again changes nothing - neither the order of the two holders nor the
    window. *)
Theorem Update_idempotent : forall (o : AudioOverlap.t) (st : Store),
  AudioOverlap.Update (AudioOverlap.Update o st) st = AudioOverlap.Update o st.
Proof.
  intros o st. unfold AudioOverlap.Update at 2 3. cbv zeta.
  set (h1 := AudioOverlap.m_frontClip o).
  set (h2 := AudioOverlap.m_rearClip o).
  destruct (Z.leb_spec (AudioClip.Start (st h1)) (AudioClip.Start (st h2)))
    as [Hord | Hord].
  - destruct (AudioClip.End (st h1) <=? AudioClip.Start (st h2)) eqn:Hno;
      unfold AudioOverlap.Update, AudioOverlap.set_window;
      cbn [AudioOverlap.m_frontClip AudioOverlap.m_rearClip
           AudioOverlap.m_id AudioOverlap.m_transition];
      (replace (AudioClip.Start (st h1) <=? AudioClip.Start (st h2))
         with true by (symmetry; apply Z.leb_le; lia));
      rewrite Hno; reflexivity.
  - destruct (AudioClip.End (st h2) <=? AudioClip.Start (st h1)) eqn:Hno;
      unfold AudioOverlap.Update, AudioOverlap.set_window;
      cbn [AudioOverlap.m_frontClip AudioOverlap.m_rearClip
           AudioOverlap.m_id AudioOverlap.m_transition];
      (replace (AudioClip.Start (st h2) <=? AudioClip.Start (st h1))
         with true by (symmetry; apply Z.leb_le; lia));
      rewrite Hno; reflexivity.
Qed.

(** For two clips that each have end > start, the window does not depend on
    the order in which the clips are handed to the overlap, and it is never
    inverted. *)
Theorem window_independent_of_order :
  forall (id1 id2 : Z) (h1 h2 : AudioOverlap.Holder) (st : Store),
    AudioClip.Start (st h1) < AudioClip.End (st h1) ->
    AudioClip.Start (st h2) < AudioClip.End (st h2) ->
    let o12 := AudioOverlap.AudioOverlap_Impl id1 h1 h2 st in
    let o21 := AudioOverlap.AudioOverlap_Impl id2 h2 h1 st in
    AudioOverlap.Start o12 = AudioOverlap.Start o21
    /\ AudioOverlap.End o12 = AudioOverlap.End o21
    /\ AudioOverlap.Start o12 <= AudioOverlap.End o12.
Proof.
  intros id1 id2 h1 h2 st H1 H2. cbv zeta.
  unfold AudioOverlap.AudioOverlap_Impl, AudioOverlap.Update,
    AudioOverlap.Start, AudioOverlap.End.
  cbn [AudioOverlap.m_frontClip AudioOverlap.m_rearClip]. cbv zeta.
  set (s1 := AudioClip.Start (st h1)) in *.
  set (e1 := AudioClip.End (st h1)) in *.
  set (s2 := AudioClip.Start (st h2)) in *.
  set (e2 := AudioClip.End (st h2)) in *.
  destruct (Z.leb_spec s1 s2), (Z.leb_spec s2 s1);
    repeat match goal with
           | |- context [?a <=? ?b] => destruct (Z.leb_spec a b)
           end; cbn; lia.
Qed.

(** HasOverlap and the window agree: for two clips that each have end >
    start, HasOverlap(a, b) is true exactly when the overlap built from them
    has a window of positive length, and false exactly when the window is
    (0,0). *)
Theorem HasOverlap_iff_window :
  forall (id : Z) (h1 h2 : AudioOverlap.Holder) (st : Store),
    AudioClip.Start (st h1) < AudioClip.End (st h1) ->
    AudioClip.Start (st h2) < AudioClip.End (st h2) ->
    let o := AudioOverlap.AudioOverlap_Impl id h1 h2 st in
    (AudioOverlap.HasOverlap h1 h2 st = true
     <-> AudioOverlap.Start o < AudioOverlap.End o)
    /\ (AudioOverlap.HasOverlap h1 h2 st = false
        <-> AudioOverlap.Start o = 0 /\ AudioOverlap.End o = 0).
Proof.
  intros id h1 h2 st H1 H2. cbv zeta.
  pose proof (HasOverlap_true_iff h1 h2 st) as Ht.
  assert (Hf : AudioOverlap.HasOverlap h1 h2 st = false
               <-> ~ AudioOverlap.HasOverlap h1 h2 st = true)
    by (destruct (AudioOverlap.HasOverlap h1 h2 st); split; congruence).
  rewrite Hf, Ht. clear Hf Ht.
  unfold AudioOverlap.AudioOverlap_Impl, AudioOverlap.Update,
    AudioOverlap.Start, AudioOverlap.End.
  cbn [AudioOverlap.m_frontClip AudioOverlap.m_rearClip]. cbv zeta.
  set (s1 := AudioClip.Start (st h1)) in *.
  set (e1 := AudioClip.End (st h1)) in *.
  set (s2 := AudioClip.Start (st h2)) in *.
  set (e2 := AudioClip.End (st h2)) in *.
  destruct (Z.leb_spec s1 s2);
    repeat match goal with
           | |- context [?a <=? ?b] => destruct (Z.leb_spec a b)
           end; cbn; lia.
Qed.

(** *** Seeking through an overlap *)

(** Overlap.SeekTo at the edges: a position beyond Duration() is ignored and
    no clip is touched; a negative position is treated as 0 whenever the
    window is not inverted. *)
Theorem Overlap_SeekTo_edges :
  forall (o : AudioOverlap.t) (st : Store) (pos : Z),
    (pos > AudioOverlap.Duration o ->
     AudioOverlap.SeekTo pos o st = (Ok tt, st))
    /\ (pos < 0 -> 0 <= AudioOverlap.Duration o ->
        AudioOverlap.SeekTo pos o st = AudioOverlap.SeekTo 0 o st).
Proof.
  intros o st pos. unfold AudioOverlap.SeekTo. split.
  - intro Hbig.
    replace (pos >? AudioOverlap.Duration o) with true
      by (symmetry; apply Z.gtb_lt; lia).
    reflexivity.
  - intros Hneg Hdur.
    replace (pos >? AudioOverlap.Duration o) with false
      by (symmetry; rewrite Z.gtb_ltb; apply Z.ltb_ge; lia).
    replace (0 >? AudioOverlap.Duration o) with false
      by (symmetry; rewrite Z.gtb_ltb; apply Z.ltb_ge; lia).
    replace (pos <? 0) with true by (symmetry; apply Z.ltb_lt; lia).
    reflexivity.
Qed.

Lemma Update_real_window : forall (o : AudioOverlap.t) (st : Store),
  let o' := AudioOverlap.Update o st in
  AudioOverlap.Start o' < AudioOverlap.End o' ->
  AudioOverlap.Start o' = AudioClip.Start (st (AudioOverlap.m_rearClip o')).
Proof.
  intros o st. cbv zeta.
  unfold AudioOverlap.Update, AudioOverlap.Start, AudioOverlap.End.
  cbv zeta.
  destruct (AudioClip.Start _ <=? AudioClip.Start _);
    match goal with
    | |- context [if ?b then _ else _] => destruct b
    end; cbn; intro H; try reflexivity; lia.
Qed.

Lemma call_SeekTo_keeps_start :
  forall (h h' : AudioOverlap.Holder) (pos : Z) (st : Store),
    AudioClip.Start (snd (AudioOverlap.call h (AudioClip.SeekTo pos) st) h')
    = AudioClip.Start (st h').
Proof.
  intros h h' pos st. unfold AudioOverlap.call.
  pose proof (SeekTo_keeps_placement pos (st h)) as (Hs & _).
  cbv zeta in Hs.
  destruct (AudioClip.SeekTo pos (st h)) as [r x'] eqn:E.
  cbn [snd] in *. unfold AudioOverlap.store_set.
  destruct (Nat.eqb_spec h' h) as [-> | Hne]; [|reflexivity].
  unfold AudioClip.Start. exact Hs.
Qed.

(** Within a real window (one that Update() did not collapse), and absent
    int64 overflow, Overlap.SeekTo(pos) for pos in [0, Duration()] seeks the
    rear clip to pos itself and the front clip to pos plus the distance
    between the two clips' starts - the same timeline instant in both; the
    rear clip is not sought when the front clip's seek throws. *)
Theorem Overlap_SeekTo_translates :
  forall (o0 : AudioOverlap.t) (st : Store) (pos : Z),
    let o := AudioOverlap.Update o0 st in
    let front := AudioOverlap.FrontClip o in
    let rear := AudioOverlap.RearClip o in
    let gap := AudioClip.Start (st rear) - AudioClip.Start (st front) in
    AudioOverlap.Start o < AudioOverlap.End o ->
    0 <= pos <= AudioOverlap.Duration o ->
    is_int64 pos -> is_int64 gap -> is_int64 (pos + gap) ->
    AudioOverlap.SeekTo pos o st
    = match AudioOverlap.call front (AudioClip.SeekTo (pos + gap)) st with
      | (Throw ex, st1) => (Throw ex, st1)
      | (Ok _, st1) => AudioOverlap.call rear (AudioClip.SeekTo pos) st1
      end.
Proof.
  intros o0 st pos o front rear gap Hwin Hpos Hp Hg Hpg.
  pose proof (Update_real_window o0 st Hwin) as Hstart. fold o in Hstart.
  unfold AudioOverlap.SeekTo.
  replace (pos >? AudioOverlap.Duration o) with false
    by (symmetry; rewrite Z.gtb_ltb; apply Z.ltb_ge; lia).
  replace (pos <? 0) with false by (symmetry; apply Z.ltb_ge; lia).
  cbv zeta. fold front rear. unfold AudioOverlap.RearClip in rear.
  rewrite Hstart. fold rear.
  assert (H1 : add64 pos (sub64 (AudioClip.Start (st rear))
                                (AudioClip.Start (st front)))
               = pos + gap).
  { unfold add64, sub64. fold gap. rewrite (wrap64_id gap Hg).
    apply wrap64_id. exact Hpg. }
  unfold AudioOverlap.FrontClip in front. fold front. rewrite H1.
  pose proof (call_SeekTo_keeps_start front rear (pos + gap) st) as Hk.
  destruct (AudioOverlap.call front (AudioClip.SeekTo (pos + gap)) st)
    as [[u | ex] st1]; [|reflexivity].
  cbn [snd] in Hk. rewrite Hk.
  replace (add64 pos (sub64 (AudioClip.Start (st rear))
                            (AudioClip.Start (st rear))))
    with pos; [reflexivity|].
  unfold add64, sub64. rewrite Z.sub_diag, wrap64_0, Z.add_0_r.
  symmetry. apply wrap64_id. exact Hp.
Qed.

(** *** Reading through an overlap *)

(** An overlap always has a transition, and the one it starts with (and
    falls back to when SetTransition is given none) is a hard cut: what
    Overlap.ReadAudioSamples returns is the very buffer the rear clip
    delivered, the front clip's samples being read and dropped. *)
Theorem Overlap_default_plays_rear :
  (forall id h1 h2 (st : Store),
     AudioOverlap.GetTransition (AudioOverlap.AudioOverlap_Impl id h1 h2 st)
     = DefaultAudioTransition_Impl)
  /\ (forall o : AudioOverlap.t,
        AudioOverlap.GetTransition (AudioOverlap.SetTransition None o)
        = DefaultAudioTransition_Impl)
  /\ (forall (o : AudioOverlap.t) (st : Store),
        AudioOverlap.GetTransition (AudioOverlap.Update o st)
        = AudioOverlap.GetTransition o)
  /\ (forall (o : AudioOverlap.t) (st st' : Store) (n : Z) (e : bool) res,
        AudioOverlap.GetTransition o = DefaultAudioTransition_Impl ->
        clampedCount n o st <> 0 ->
        AudioOverlap.ReadAudioSamples n e o st = (Ok res, st') ->
        exists r1 r2 st1,
          AudioOverlap.call (AudioOverlap.m_frontClip o)
            (AudioClip.ReadAudioSamples (clampedCount n o st) false) st
          = (Ok r1, st1)
          /\ AudioOverlap.call (AudioOverlap.m_rearClip o)
               (AudioClip.ReadAudioSamples (AudioClip.readSamples r1) false)
               st1 = (Ok r2, st')
          /\ AudioOverlap.amat res = AudioClip.amat r2).
Proof.
  assert (Hupd : forall (o : AudioOverlap.t) (st : Store),
            AudioOverlap.GetTransition (AudioOverlap.Update o st)
            = AudioOverlap.GetTransition o).
  { intros o st. unfold AudioOverlap.GetTransition, AudioOverlap.Update.
    cbv zeta.
    destruct (AudioClip.Start _ <=? AudioClip.Start _);
      match goal with
      | |- context [if ?b then _ else _] => destruct b
      end; reflexivity. }
  split; [|split; [|split]].
  - intros id h1 h2 st. unfold AudioOverlap.AudioOverlap_Impl.
    rewrite Hupd. reflexivity.
  - intro o. reflexivity.
  - exact Hupd.
  - intros o st st' n e res Hdef Hk.
    unfold AudioOverlap.ReadAudioSamples.
    pose proof (clampedCount_eq n o st) as Hc. cbv zeta in Hc. cbv zeta.
    rewrite Hc. apply Z.eqb_neq in Hk. rewrite Hk.
    destruct (AudioOverlap.call (AudioOverlap.m_frontClip o) _ st)
      as [[r1|ex] st1] eqn:E1; [|discriminate].
    destruct (AudioOverlap.call (AudioOverlap.m_rearClip o) _ st1)
      as [[r2|ex] st2] eqn:E2; [|discriminate].
    intro E. inversion E; subst res st'; clear E.
    exists r1, r2, st1. split; [reflexivity|]. split; [exact E2|].
    cbn [AudioOverlap.amat]. unfold AudioOverlap.GetTransition in Hdef.
    rewrite Hdef. reflexivity.
Qed.

(** Failures while reading through an overlap of two distinct clips.  When
    the front clip's read throws, the overlap throws the same error and the
    rear clip has not been read.  When the rear clip's read throws, the
    overlap throws that error although the front clip has already moved on:
    the front clip keeps the state its read reached, and the samples it
    delivered are lost to the caller. *)
Theorem Overlap_read_failures :
  forall (o : AudioOverlap.t) (st : Store) (n : Z) (e : bool),
    let front := AudioOverlap.m_frontClip o in
    let rear := AudioOverlap.m_rearClip o in
    let k := clampedCount n o st in
    front <> rear -> k <> 0 ->
    (forall ex st1,
       AudioOverlap.call front (AudioClip.ReadAudioSamples k false) st
       = (Throw ex, st1) ->
       AudioOverlap.ReadAudioSamples n e o st = (Throw ex, st1)
       /\ st1 rear = st rear)
    /\ (forall r1 st1 ex st2,
          AudioOverlap.call front (AudioClip.ReadAudioSamples k false) st
          = (Ok r1, st1) ->
          AudioOverlap.call rear
            (AudioClip.ReadAudioSamples (AudioClip.readSamples r1) false) st1
          = (Throw ex, st2) ->
          AudioOverlap.ReadAudioSamples n e o st = (Throw ex, st2)
          /\ st2 front
             = snd (AudioClip.ReadAudioSamples k false (st front))).
Proof.
  intros o st n e front rear k Hne Hk.
  pose proof (clampedCount_eq n o st) as Hc. cbv zeta in Hc.
  apply Z.eqb_neq in Hk.
  assert (Hset : forall (h h' : AudioOverlap.Holder) (y : Clip) (s : Store),
            h' <> h -> AudioOverlap.store_set h y s h' = s h').
  { intros h h' y s Hd. unfold AudioOverlap.store_set.
    destruct (Nat.eqb_spec h' h); [contradiction | reflexivity]. }
  assert (Hsame : forall (h : AudioOverlap.Holder) (y : Clip) (s : Store),
            AudioOverlap.store_set h y s h = y).
  { intros h y s. unfold AudioOverlap.store_set.
    rewrite Nat.eqb_refl. reflexivity. }
  split.
  - intros ex st1 E1. split.
    + unfold AudioOverlap.ReadAudioSamples. cbv zeta. rewrite Hc.
      fold k. rewrite Hk. fold front. rewrite E1. reflexivity.
    + unfold AudioOverlap.call in E1.
      destruct (AudioClip.ReadAudioSamples k false (st front)) as [r y].
      inversion E1; subst. apply Hset. congruence.
  - intros r1 st1 ex st2 E1 E2. split.
    + unfold AudioOverlap.ReadAudioSamples. cbv zeta. rewrite Hc.
      fold k. rewrite Hk. fold front rear. rewrite E1, E2. reflexivity.
    + unfold AudioOverlap.call in E1, E2.
      destruct (AudioClip.ReadAudioSamples k false (st front)) as [r y].
      inversion E1; subst r st1; clear E1.
      destruct (AudioClip.ReadAudioSamples _ false _) as [r' y'].
      inversion E2; subst r' st2; clear E2.
      cbn [snd]. rewrite Hset by exact Hne. apply Hsame.
Qed.

End MoreOverlapProperties.

(* ------------------------------------------------------------------------- *)
(** ** The further properties on concrete clips *)

#[local] Transparent wrap64 wrap_u32 wrap_i32.

Ltac by_evaluation :=
  vm_compute; repeat split;
  first [ reflexivity | (let H := fresh in intro H; discriminate H) ].

Ltac feed_eval H :=
  repeat match type of H with
         | ?A -> _ =>
             let h := fresh "prem" in
             assert (h : A) by by_evaluation; specialize (H h); clear h
         end.

Lemma AudioClip_AudioImpl_fresh_witness :
  exists x0 : AudioClip.t Sim.t,
    Example.make 5000 48000 0 5000 0 0 = Ok x0
    /\ AudioClip.ReadPos x0 = 0
    /\ AudioClip.m_totalSamples x0 = 240000.
Proof.
  exists Example.clipA. split; [vm_compute; reflexivity|].
  pose proof (AudioClip_AudioImpl_fresh (MR := Sim.reader)
                1 (Sim.mkParser 0 5000) 2 48000 "flt" 0 5000 0 0
                Example.clipA) as Hw.
  feed_eval Hw. destruct Hw as (_ & _ & _ & _ & _ & _ & _ & Ht & Hp).
  split; [exact Hp|]. rewrite Ht. vm_compute. reflexivity.
Defined.

Lemma offsets_never_negative_witness :
  0 <= AudioClip.StartOffset Example.clipTrimmed
  /\ 0 <= AudioClip.EndOffset Example.clipTrimmed.
Proof.
  apply (offsets_never_negative (MR := Sim.reader)
           1 (Sim.mkParser 0 5000) 2 48000 "flt" 5000 5100 0 0
           Example.clipShort Example.clipTrimmed).
  - vm_compute. reflexivity.
  - apply (AudioClip.Reachable_call Example.clipShort Example.clipShort
             (AudioClip.CallChangeStartOffset 1000)).
    apply AudioClip.Reachable_init.
Defined.


Lemma reads_of_exhausted_clip_witness :
  AudioClip.run
    [AudioClip.CallReadAudioSamples 1024 false;
     AudioClip.CallReadAudioSamples 7 true]
    Example.clipA_done
  = AudioClip.set_eof true Example.clipA_done.
Proof.
  assert (Hw := reads_of_exhausted_clip Example.clipA_done
                  (or_introl eq_refl)).
  destruct Hw as (_ & H & _).
  exact (H 1024 false [(7, true)]).
Defined.

Lemma ReadAudioSamples_accounting_witness :
  exists res x',
    AudioClip.ReadAudioSamples 1000 false Example.clipA = (Ok res, x')
    /\ AudioClip.LeftSamples x'
       = AudioClip.LeftSamples Example.clipA - AudioClip.readSamples res.
Proof.
  exists (AudioClip.mkRead
            (ImMat.mk 1000 1 2 4 0%float) 1000 false false).
  exists (snd (AudioClip.ReadAudioSamples 1000 false Example.clipA)).
  assert (E : AudioClip.ReadAudioSamples 1000 false Example.clipA
              = (Ok (AudioClip.mkRead (ImMat.mk 1000 1 2 4 0%float)
                       1000 false false),
                 snd (AudioClip.ReadAudioSamples 1000 false Example.clipA)))
    by (vm_compute; reflexivity).
  split; [exact E|].
  match type of E with
  | _ = (Ok ?r, ?y) =>
      pose proof (ReadAudioSamples_accounting Sim_contract Example.clipA
                    1000 false r y) as Hw
  end.
  feed_eval Hw. destruct Hw as [H _]. exact H.
Defined.

Lemma ReadAudioSamples_timestamp_witness :
  ImMat.time_stamp
    (AudioClip.amat
       (AudioClip.mkRead (ImMat.mk 1000 1 2 4 0%float) 1000 false false))
  = AudioClip.timeStampOf
      (AudioClip.expectedReadPosOf
         (MediaReader.GetAudioOutSampleRate
            (AudioClip.m_srcReader Example.clipA)) Example.clipA)
      Example.clipA.
Proof.
  apply (ReadAudioSamples_timestamp 1000 false Example.clipA
           (snd (AudioClip.ReadAudioSamples 1000 false Example.clipA))).
  - reflexivity.
  - vm_compute. discriminate.
  - reflexivity.
  - vm_compute. reflexivity.
Defined.

Lemma SeekTo_twice_witness :
  AudioClip.SeekTo 1000 (snd (AudioClip.SeekTo 1000 Example.clipA))
  = (Ok tt, snd (AudioClip.SeekTo 1000 Example.clipA)).
Proof.
  apply (SeekTo_twice Sim_contract Example.clipA).
  - by_evaluation.
  - vm_compute. reflexivity.
Defined.

Lemma ChangeEndOffset_LeftSamples_witness :
  AudioClip.LeftSamples (snd (AudioClip.ChangeEndOffset 1000 Example.clipA))
  - AudioClip.LeftSamples Example.clipA
  = AudioClip.m_totalSamples
      (snd (AudioClip.ChangeEndOffset 1000 Example.clipA))
    - AudioClip.m_totalSamples Example.clipA.
Proof.
  pose proof (ChangeEndOffset_LeftSamples Example.clipA
                (snd (AudioClip.ChangeEndOffset 1000 Example.clipA)) 1000)
    as Hw.
  feed_eval Hw. destruct Hw as [H _]. apply H. reflexivity.
Defined.

Lemma Clone_keeps_placement_witness :
  exists y : AudioClip.t Sim.t,
    AudioClip.Clone (MR := Sim.reader) (Sim.mkParser 0 5000) 1 44100 "s16"
      Example.clipB = Ok y
    /\ AudioClip.Start y = AudioClip.Start Example.clipB
    /\ AudioClip.End y = AudioClip.End Example.clipB.
Proof.
  destruct (AudioClip.Clone (MR := Sim.reader) (Sim.mkParser 0 5000)
              1 44100 "s16" Example.clipB) as [y | ex] eqn:E;
    [|vm_compute in E; discriminate E].
  exists y. split; [reflexivity|].
  destruct (Clone_keeps_placement _ _ _ _ _ _ E) as (_ & H1 & _ & H2 & _).
  split; assumption.
Defined.

Lemma Clone_rejects_empty_span_witness :
  exists what,
    AudioClip.Clone (MR := Sim.reader) (Sim.mkParser 0 5000) 2 48000 "flt"
      Example.clipTrimmed = Throw (invalid_argument what).
Proof.
  apply (Clone_rejects_empty_span (MR := Sim.reader) (Sim.mkParser 0 5000)
           2 48000 "flt" Example.clipTrimmed
           (Sim.mk 0 0 0 true 5000 0) (Sim.mk 2 48000 8 true 5000 0));
    by_evaluation.
Defined.

Lemma window_independent_of_order_witness :
  AudioOverlap.Start
    (AudioOverlap.AudioOverlap_Impl 1 0%nat 1%nat
       (Example.store2 Example.clipA Example.clipB))
  = AudioOverlap.Start
      (AudioOverlap.AudioOverlap_Impl 2 1%nat 0%nat
         (Example.store2 Example.clipA Example.clipB)).
Proof.
  pose proof (window_independent_of_order 1 2 0%nat 1%nat
                (Example.store2 Example.clipA Example.clipB)) as Hw.
  feed_eval Hw. destruct Hw as (H & _). exact H.
Defined.

Lemma HasOverlap_iff_window_witness :
  AudioOverlap.HasOverlap 0%nat 1%nat
    (Example.store2 Example.clipA Example.clipB) = true
  <-> AudioOverlap.Start
        (AudioOverlap.AudioOverlap_Impl 1 0%nat 1%nat
           (Example.store2 Example.clipA Example.clipB))
      < AudioOverlap.End
          (AudioOverlap.AudioOverlap_Impl 1 0%nat 1%nat
             (Example.store2 Example.clipA Example.clipB)).
Proof.
  pose proof (HasOverlap_iff_window 1 0%nat 1%nat
                (Example.store2 Example.clipA Example.clipB)) as Hw.
  feed_eval Hw. destruct Hw as (H & _). exact H.
Defined.

Lemma Overlap_SeekTo_translates_witness :
  AudioOverlap.SeekTo 1000
    (AudioOverlap.Update Example.overlap01
       (Example.store2 Example.clipA Example.clipB))
    (Example.store2 Example.clipA Example.clipB)
  = match AudioOverlap.call 0%nat (AudioClip.SeekTo (1000 + 3000))
            (Example.store2 Example.clipA Example.clipB) with
    | (Throw ex, st1) => (Throw ex, st1)
    | (Ok _, st1) => AudioOverlap.call 1%nat (AudioClip.SeekTo 1000) st1
    end.
Proof.
  pose proof (Overlap_SeekTo_translates Example.overlap01
                (Example.store2 Example.clipA Example.clipB) 1000) as Hw.
  cbv zeta in Hw. feed_eval Hw. exact Hw.
Defined.

Lemma Overlap_read_failures_witness :
  exists st1,
    AudioOverlap.ReadAudioSamples 1000 false Example.overlap01
      (Faulty.store2 Faulty.clipA Faulty.clipB)
    = (Throw runtime_error, st1)
    /\ st1 1%nat = Faulty.clipB.
Proof.
  pose proof (Overlap_read_failures Example.overlap01
                (Faulty.store2 Faulty.clipA Faulty.clipB) 1000 false) as Hw.
  cbv zeta in Hw. feed_eval Hw. destruct Hw as [H _].
  eexists. apply H. vm_compute. reflexivity.
Defined.

Lemma Change_offset_moves_the_end_witness :
  AudioClip.Start (snd (AudioClip.ChangeStartOffset 1000 Example.clipB))
  = AudioClip.Start Example.clipB
  /\ AudioClip.End (snd (AudioClip.ChangeStartOffset 1000 Example.clipB))
     = wrap64 (AudioClip.End Example.clipB
               - (1000 - AudioClip.StartOffset Example.clipB)).
Proof.
  destruct (Change_offset_moves_the_end Example.clipB
              (snd (AudioClip.ChangeStartOffset 1000 Example.clipB)) 1000)
    as [H _].
  assert (E : AudioClip.ChangeStartOffset 1000 Example.clipB
              = (Ok tt, snd (AudioClip.ChangeStartOffset 1000 Example.clipB)))
    by (vm_compute; reflexivity).
  destruct (H E) as (H1 & _ & H2 & _). split; [exact H1 | exact H2].
Defined.

Lemma Overlap_SeekTo_edges_witness :
  AudioOverlap.SeekTo 2001
    (AudioOverlap.Update Example.overlap01
       (Example.store2 Example.clipA Example.clipB))
    (Example.store2 Example.clipA Example.clipB)
  = (Ok tt, Example.store2 Example.clipA Example.clipB)
  /\ AudioOverlap.SeekTo (-5)
       (AudioOverlap.Update Example.overlap01
          (Example.store2 Example.clipA Example.clipB))
       (Example.store2 Example.clipA Example.clipB)
     = AudioOverlap.SeekTo 0
         (AudioOverlap.Update Example.overlap01
            (Example.store2 Example.clipA Example.clipB))
         (Example.store2 Example.clipA Example.clipB).
Proof.
  split.
  - destruct (Overlap_SeekTo_edges
                (AudioOverlap.Update Example.overlap01
                   (Example.store2 Example.clipA Example.clipB))
                (Example.store2 Example.clipA Example.clipB) 2001) as [H _].
    apply H. by_evaluation.
  - destruct (Overlap_SeekTo_edges
                (AudioOverlap.Update Example.overlap01
                   (Example.store2 Example.clipA Example.clipB))
                (Example.store2 Example.clipA Example.clipB) (-5)) as [_ H].
    apply H; by_evaluation.
Defined.
